(** * City Mitra AI: the record stores, the user directory and the complaint
      ledger of [index.tsx], embedded in Rocq.

    The React component [App] is modelled as a state machine: a [World] is
    the component state ([useState] cells) together with the browser's
    [localStorage] and the log of [alert] messages, and every event handler
    of the component is a function on worlds.  Inputs that come from the
    environment (the random number behind a complaint id, the clock, the
    outcome of the call to the language model) are explicit arguments.

    Strings are Rocq strings; [toLowerCase] and [trim] are modelled on the
    ASCII range.  Numbers ([Date.now()]) are integers. *)

From Stdlib Require Import ZArith String Ascii List Bool Lia DecimalString DecimalNat.
From stdpp Require Import base option list strings.

Local Open Scope string_scope.
Local Open Scope list_scope.

(** ** String primitives of the platform *)

Module JS.

(** [a || b] on strings: the empty string is falsy. *)
Definition or_else (a b : string) : string :=
  match a with
  | EmptyString => b
  | String _ _ => a
  end.

(** [a || b] where [a] may be [undefined]. *)
Definition or_default {A : Type} (a : option A) (b : A) : A :=
  match a with
  | Some x => x
  | None => b
  end.

Definition lower_ascii (c : ascii) : ascii :=
  let n := nat_of_ascii c in
  if (65 <=? n)%nat && (n <=? 90)%nat then ascii_of_nat (n + 32) else c.

(** [s.toLowerCase()] on text of ASCII characters, where the source folds
    the letters A to Z and nothing else, one character at a time.  Outside
    ASCII the source follows the Unicode case mappings, some of which look
    at the neighbouring characters; this definition leaves every character
    above 127 as it is.  What depends on case folding is stated for ASCII
    text. *)
Fixpoint toLowerCase (s : string) : string :=
  match s with
  | EmptyString => EmptyString
  | String c s' => String (lower_ascii c) (toLowerCase s')
  end.

(** [s.startsWith(t)] *)
Fixpoint startsWith (s t : string) : bool :=
  match t, s with
  | EmptyString, _ => true
  | String _ _, EmptyString => false
  | String b t', String a s' => Ascii.eqb a b && startsWith s' t'
  end.

(** [s.includes(t)]: [t] occurs in [s] as a contiguous substring. *)
Fixpoint includes (s t : string) : bool :=
  startsWith s t ||
  match s with
  | EmptyString => false
  | String _ s' => includes s' t
  end.

Definition is_whitespace (c : ascii) : bool :=
  let n := nat_of_ascii c in
  ((9 <=? n)%nat && (n <=? 13)%nat) || (n =? 32)%nat.

Fixpoint trimStart (s : string) : string :=
  match s with
  | EmptyString => EmptyString
  | String c s' => if is_whitespace c then trimStart s' else s
  end.

Fixpoint trimEnd (s : string) : string :=
  match s with
  | EmptyString => EmptyString
  | String c s' =>
      match trimEnd s' with
      | EmptyString => if is_whitespace c then EmptyString else String c EmptyString
      | t => String c t
      end
  end.

(** [s.trim()] *)
Definition trim (s : string) : string := trimEnd (trimStart s).

(** Truthiness of a string. *)
Definition truthy (s : string) : bool :=
  match s with
  | EmptyString => false
  | String _ _ => true
  end.

(** [n.toString()] for a non-negative integer. *)
Definition toString (n : nat) : string := NilEmpty.string_of_uint (Nat.to_uint n).

Fixpoint repeat_char (c : ascii) (k : nat) : string :=
  match k with
  | O => EmptyString
  | S k' => String c (repeat_char c k')
  end.

(** [s.padStart(n, c)] for a one-character filler. *)
Definition padStart (n : nat) (c : ascii) (s : string) : string :=
  repeat_char c (n - String.length s) ++ s.

End JS.

(** ** Types & Interfaces *)

Inductive Status := Pending | InProgress | Resolved.
Inductive Urgency := Low | Medium | High.
Inductive Role := user | admin.

#[global] Instance Status_eq_dec : EqDecision Status.
Proof. solve_decision. Defined.
#[global] Instance Urgency_eq_dec : EqDecision Urgency.
Proof. solve_decision. Defined.
#[global] Instance Role_eq_dec : EqDecision Role.
Proof. solve_decision. Defined.

(** The text of a role, as a template literal prints it. *)
Definition Role_text (r : Role) : string :=
  match r with
  | user => "user"
  | admin => "admin"
  end.

Module UserAccount.
Record t := mk {
  username : string;
  password : string;
  name : string;
  role : Role
}.
End UserAccount.

Module AdminComment.
Record t := mk {
  text : string;
  date : Z
}.
End AdminComment.

Module Complaint.
Record t := mk {
  id : string;
  userId : string;
  userName : string;
  originalText : string;
  englishText : string;
  category : string;
  urgency : Urgency;
  status : Status;
  image : option string;
  adminComments : list AdminComment.t;
  timestamp : Z
}.

(** [{ ...c, status: s }] *)
Definition with_status (s : Status) (c : t) : t :=
  mk (id c) (userId c) (userName c) (originalText c) (englishText c)
     (category c) (urgency c) s (image c) (adminComments c) (timestamp c).

(** [{ ...c, adminComments: a }] *)
Definition with_adminComments (a : list AdminComment.t) (c : t) : t :=
  mk (id c) (userId c) (userName c) (originalText c) (englishText c)
     (category c) (urgency c) (status c) (image c) a (timestamp c).
End Complaint.

Module UserSession.
Record t := mk {
  id : string;
  role : Role;
  name : string
}.
End UserSession.

(** ** Persistence Layer *)

(** The text held under a key of [localStorage], as the application can
    observe it.  The application is the only writer of its two keys and
    writes [JSON.stringify] of a collection of the declared record type;
    any other text is either empty or rejected by [JSON.parse].  A well-formed
    document of another shape is outside the declared types and is not
    modelled. *)
Inductive text_of (A : Type) : Type :=
| Blank                 (* the empty string *)
| Garbled               (* non-empty text on which JSON.parse throws *)
| Stringified (a : A).  (* JSON.stringify a *)
Arguments Blank {A}.
Arguments Garbled {A}.
Arguments Stringified {A} a.

(** A computation that may throw: [None] is a thrown exception. *)
Definition throws (A : Type) : Type := option A.

(** [try { body } catch (e) { handler }] *)
Definition try_catch {A : Type} (body : throws A) (handler : A) : A :=
  match body with
  | Some v => v
  | None => handler
  end.

(** [JSON.parse(data)] *)
Definition JSON_parse {A : Type} (data : text_of A) : throws A :=
  match data with
  | Stringified a => Some a
  | Blank | Garbled => None
  end.

(** [JSON.stringify(a)] *)
Definition JSON_stringify {A : Type} (a : A) : text_of A := Stringified a.

(** Truthiness of a stored text: only the empty string is falsy. *)
Definition truthy_text {A : Type} (data : text_of A) : bool :=
  match data with
  | Blank => false
  | Garbled | Stringified _ => true
  end.

(** [data ? JSON.parse(data) : []], where [data] is what [getItem] returned
    ([None] is [null]). *)
Definition parse_or_empty {A : Type} (data : option (text_of (list A))) : throws (list A) :=
  match data with
  | Some d => if truthy_text d then JSON_parse d else Some []
  | None => Some []
  end.

(** [localStorage] restricted to the two keys of the application; a field
    is what [getItem] returns for the key of that name. *)
Record localStorage := mkStorage {
  DB_KEY : option (text_of (list Complaint.t));     (* 'CITY_MITRA_COMPLAINTS_V5' *)
  USERS_KEY : option (text_of (list UserAccount.t)) (* 'CITY_MITRA_USERS_V5' *)
}.

Definition getComplaintsFromStorage (ls : localStorage) : list Complaint.t :=
  try_catch (parse_or_empty (DB_KEY ls)) [].

Definition defaultAdmin : UserAccount.t :=
  UserAccount.mk "admin" "admin123" "Chief Administrator" admin.

Definition getUsersFromStorage (ls : localStorage) : list UserAccount.t :=
  try_catch
    (users ← parse_or_empty (USERS_KEY ls);
     Some (match find (fun u => UserAccount.username u =? "admin") users with
           | Some _ => users
           | None => users ++ [defaultAdmin]
           end))
    [].

Definition saveComplaintsToStorage (complaints : list Complaint.t) (ls : localStorage)
  : localStorage :=
  mkStorage (Some (JSON_stringify complaints)) (USERS_KEY ls).

Definition saveUsersToStorage (users : list UserAccount.t) (ls : localStorage) : localStorage :=
  mkStorage (DB_KEY ls) (Some (JSON_stringify users)).

Definition CATEGORIES : list string :=
  ["Electricity"; "Water"; "Roads"; "Sanitation"; "Traffic"; "Public Safety"; "General"].

(** ** The component state *)

Inductive AuthMode := login | register.
Inductive View := auth | dashboard.

(** A filter of type [T | 'All']. *)
Inductive Filter (T : Type) : Type :=
| All
| Only (x : T).
Arguments All {T}.
Arguments Only {T} x.

Record AppState := mkApp {
  currentUser : option UserSession.t;
  authMode : AuthMode;
  view : View;
  complaints : list Complaint.t;
  loading : bool;
  (* Filter States (Admin) *)
  searchQuery : string;
  statusFilter : Filter Status;
  urgencyFilter : Filter Urgency;
  categoryFilter : string;
  (* Form States (User) *)
  text : string;
  selectedCat : string;
  img : option string;
  (* Auth States *)
  loginRole : Role;
  userVal : string;
  passVal : string;
  nameVal : string
}.

(** The state of a freshly rendered component, before any effect has run. *)
Definition initialApp : AppState :=
  mkApp None login auth [] false "" All All "All" "" "General" None user "" "" "".

Record World := mkWorld {
  app : AppState;
  storage : localStorage;
  alerts : list string   (* messages shown by [alert], oldest first *)
}.

Definition with_app (a' : AppState) (w : World) : World :=
  mkWorld a' (storage w) (alerts w).

(** A write to [localStorage]. *)
Definition writing (f : localStorage -> localStorage) (w : World) : World :=
  mkWorld (app w) (f (storage w)) (alerts w).

(** [window.alert(msg)] *)
Definition alert (msg : string) (w : World) : World :=
  mkWorld (app w) (storage w) (alerts w ++ [msg]).

(** The state setters returned by [useState]. *)
Definition setCurrentUser (v : option UserSession.t) (w : World) : World :=
  let a := app w in
  with_app (mkApp v (authMode a) (view a) (complaints a) (loading a) (searchQuery a)
    (statusFilter a) (urgencyFilter a) (categoryFilter a) (text a) (selectedCat a) (img a)
    (loginRole a) (userVal a) (passVal a) (nameVal a)) w.
Definition setAuthMode (v : AuthMode) (w : World) : World :=
  let a := app w in
  with_app (mkApp (currentUser a) v (view a) (complaints a) (loading a) (searchQuery a)
    (statusFilter a) (urgencyFilter a) (categoryFilter a) (text a) (selectedCat a) (img a)
    (loginRole a) (userVal a) (passVal a) (nameVal a)) w.
Definition setView (v : View) (w : World) : World :=
  let a := app w in
  with_app (mkApp (currentUser a) (authMode a) v (complaints a) (loading a) (searchQuery a)
    (statusFilter a) (urgencyFilter a) (categoryFilter a) (text a) (selectedCat a) (img a)
    (loginRole a) (userVal a) (passVal a) (nameVal a)) w.
Definition setComplaints (v : list Complaint.t) (w : World) : World :=
  let a := app w in
  with_app (mkApp (currentUser a) (authMode a) (view a) v (loading a) (searchQuery a)
    (statusFilter a) (urgencyFilter a) (categoryFilter a) (text a) (selectedCat a) (img a)
    (loginRole a) (userVal a) (passVal a) (nameVal a)) w.
Definition setLoading (v : bool) (w : World) : World :=
  let a := app w in
  with_app (mkApp (currentUser a) (authMode a) (view a) (complaints a) v (searchQuery a)
    (statusFilter a) (urgencyFilter a) (categoryFilter a) (text a) (selectedCat a) (img a)
    (loginRole a) (userVal a) (passVal a) (nameVal a)) w.
Definition setSearchQuery (v : string) (w : World) : World :=
  let a := app w in
  with_app (mkApp (currentUser a) (authMode a) (view a) (complaints a) (loading a) v
    (statusFilter a) (urgencyFilter a) (categoryFilter a) (text a) (selectedCat a) (img a)
    (loginRole a) (userVal a) (passVal a) (nameVal a)) w.
Definition setStatusFilter (v : Filter Status) (w : World) : World :=
  let a := app w in
  with_app (mkApp (currentUser a) (authMode a) (view a) (complaints a) (loading a) (searchQuery a)
    v (urgencyFilter a) (categoryFilter a) (text a) (selectedCat a) (img a)
    (loginRole a) (userVal a) (passVal a) (nameVal a)) w.
Definition setUrgencyFilter (v : Filter Urgency) (w : World) : World :=
  let a := app w in
  with_app (mkApp (currentUser a) (authMode a) (view a) (complaints a) (loading a) (searchQuery a)
    (statusFilter a) v (categoryFilter a) (text a) (selectedCat a) (img a)
    (loginRole a) (userVal a) (passVal a) (nameVal a)) w.
Definition setCategoryFilter (v : string) (w : World) : World :=
  let a := app w in
  with_app (mkApp (currentUser a) (authMode a) (view a) (complaints a) (loading a) (searchQuery a)
    (statusFilter a) (urgencyFilter a) v (text a) (selectedCat a) (img a)
    (loginRole a) (userVal a) (passVal a) (nameVal a)) w.
Definition setText (v : string) (w : World) : World :=
  let a := app w in
  with_app (mkApp (currentUser a) (authMode a) (view a) (complaints a) (loading a) (searchQuery a)
    (statusFilter a) (urgencyFilter a) (categoryFilter a) v (selectedCat a) (img a)
    (loginRole a) (userVal a) (passVal a) (nameVal a)) w.
Definition setSelectedCat (v : string) (w : World) : World :=
  let a := app w in
  with_app (mkApp (currentUser a) (authMode a) (view a) (complaints a) (loading a) (searchQuery a)
    (statusFilter a) (urgencyFilter a) (categoryFilter a) (text a) v (img a)
    (loginRole a) (userVal a) (passVal a) (nameVal a)) w.
Definition setImg (v : option string) (w : World) : World :=
  let a := app w in
  with_app (mkApp (currentUser a) (authMode a) (view a) (complaints a) (loading a) (searchQuery a)
    (statusFilter a) (urgencyFilter a) (categoryFilter a) (text a) (selectedCat a) v
    (loginRole a) (userVal a) (passVal a) (nameVal a)) w.
Definition setLoginRole (v : Role) (w : World) : World :=
  let a := app w in
  with_app (mkApp (currentUser a) (authMode a) (view a) (complaints a) (loading a) (searchQuery a)
    (statusFilter a) (urgencyFilter a) (categoryFilter a) (text a) (selectedCat a) (img a)
    v (userVal a) (passVal a) (nameVal a)) w.
Definition setUserVal (v : string) (w : World) : World :=
  let a := app w in
  with_app (mkApp (currentUser a) (authMode a) (view a) (complaints a) (loading a) (searchQuery a)
    (statusFilter a) (urgencyFilter a) (categoryFilter a) (text a) (selectedCat a) (img a)
    (loginRole a) v (passVal a) (nameVal a)) w.
Definition setPassVal (v : string) (w : World) : World :=
  let a := app w in
  with_app (mkApp (currentUser a) (authMode a) (view a) (complaints a) (loading a) (searchQuery a)
    (statusFilter a) (urgencyFilter a) (categoryFilter a) (text a) (selectedCat a) (img a)
    (loginRole a) (userVal a) v (nameVal a)) w.
Definition setNameVal (v : string) (w : World) : World :=
  let a := app w in
  with_app (mkApp (currentUser a) (authMode a) (view a) (complaints a) (loading a) (searchQuery a)
    (statusFilter a) (urgencyFilter a) (categoryFilter a) (text a) (selectedCat a) (img a)
    (loginRole a) (userVal a) (passVal a) v) w.

(** Sequencing of state updates, in program order. *)
Notation "w |> f" := (f w) (at level 45, left associativity, only parsing).

(** ** Event handlers of [App] *)

(** [useEffect(() => { setComplaints(getComplaintsFromStorage()); }, [])] *)
Definition mountEffect (w : World) : World :=
  w |> setComplaints (getComplaintsFromStorage (storage w)).

Definition handleRegister (w : World) : World :=
  let a := app w in
  let users := getUsersFromStorage (storage w) in
  match find (fun u => UserAccount.username u =? userVal a) users with
  | Some _ => w |> alert "Username already exists!"
  | None =>
      let newUser :=
        UserAccount.mk (userVal a) (passVal a) (JS.or_else (nameVal a) (userVal a)) user in
      let updatedUsers := users ++ [newUser] in
      w |> writing (saveUsersToStorage updatedUsers)
        |> alert "Registration successful! Please login."
        |> setAuthMode login
        |> setPassVal ""
  end.

Definition handleLogin (w : World) : World :=
  let a := app w in
  let users := getUsersFromStorage (storage w) in
  let foundUser :=
    find (fun u => (UserAccount.username u =? userVal a) &&
                   (UserAccount.password u =? passVal a)) users in
  match foundUser with
  | Some foundUser =>
      if bool_decide (UserAccount.role foundUser ≠ loginRole a) then
        w |> alert ("Access Denied: This account is registered as a "
                    ++ Role_text (UserAccount.role foundUser) ++ ".")
      else
        w |> setCurrentUser (Some (UserSession.mk (UserAccount.username foundUser)
                                     (UserAccount.role foundUser)
                                     (UserAccount.name foundUser)))
          |> setView dashboard
  | None => w |> alert "Invalid credentials!"
  end.

Definition handleLogout (w : World) : World :=
  w |> setCurrentUser None |> setView auth |> setUserVal "" |> setPassVal "" |> setNameVal "".


(** *** The call to the language model *)

(** The object the prompt asks for, [{"translated": "...", "urgency": "..."}];
    a field that is missing reads as [undefined] ([None]).  A field that is
    present is taken to have the type the record it ends up in declares: a
    string, which may be empty, for the translated text and one of the three
    urgencies for the urgency. *)
Module AiResult.
Record t := mk {
  translated : option string;
  urgency : option Urgency
}.
End AiResult.

(** What [JSON.parse] can return for the reply, as far as the two property
    reads of [submitComplaint] can tell. *)
Inductive json : Type :=
| JsonNull                      (* null: reading a property throws a TypeError *)
| JsonObject (o : AiResult.t)   (* an object *)
| JsonOther.                    (* a number, string, boolean or array: no such property *)

(** The outcome of [await ai.models.generateContent(...)]: the promise is
    rejected, or it is fulfilled with a response whose [text] is a string or
    [undefined]. *)
Inductive generateContent : Type :=
| Rejected
| Fulfilled (response_text : option (text_of json)).

Definition await (p : generateContent) : throws (option (text_of json)) :=
  match p with
  | Rejected => None
  | Fulfilled response_text => Some response_text
  end.

(** [response.text || '{}'] *)
Definition text_or_empty_object (response_text : option (text_of json)) : text_of json :=
  match response_text with
  | Some d => if truthy_text d then d else JSON_stringify (JsonObject (AiResult.mk None None))
  | None => JSON_stringify (JsonObject (AiResult.mk None None))
  end.

(** [result.translated] *)
Definition get_translated (result : json) : throws (option string) :=
  match result with
  | JsonNull => None
  | JsonObject o => Some (AiResult.translated o)
  | JsonOther => Some None
  end.

(** [result.urgency] *)
Definition get_urgency (result : json) : throws (option Urgency) :=
  match result with
  | JsonNull => None
  | JsonObject o => Some (AiResult.urgency o)
  | JsonOther => Some None
  end.

(** The part of the [try] block of [submitComplaint] that talks to the
    model: the call, the parse of the reply and the two property reads.  It
    yields the translated text and the urgency as the reply has them, or
    throws. *)
Definition classification (reply : generateContent) : throws (option string * option Urgency) :=
  response_text ← await reply;
  result ← JSON_parse (text_or_empty_object response_text);
  translated ← get_translated result;
  urgency ← get_urgency result;
  Some (translated, urgency).

(** [`CIT-${Math.floor(Math.random() * 9999).toString().padStart(4, '0')}`],
    where [rnd] is the value of [Math.floor(Math.random() * 9999)]. *)
Definition complaintId (rnd : nat) : string :=
  "CIT-" ++ JS.padStart 4 "0"%char (JS.toString rnd).

(** [submitComplaint]; [rnd], [now] and [reply] are what [Math.random],
    [Date.now] and the language model give during this call.  The handler
    is taken as one step: the values it closes over are those of the
    render in which the form was submitted. *)
Definition submitComplaint (rnd : nat) (now : Z) (reply : generateContent) (w : World) : World :=
  let a := app w in
  match currentUser a with
  | None => w
  | Some currentUser =>
      if negb (JS.truthy (JS.trim (text a))) then w
      else
        let w := w |> setLoading true in
        let w :=
          try_catch
            (response_text ← await reply;
             result ← JSON_parse (text_or_empty_object response_text);
             translated ← get_translated result;
             urgency ← get_urgency result;
             let newComplaint :=
               Complaint.mk
                 (complaintId rnd)
                 (UserSession.id currentUser)
                 (UserSession.name currentUser)
                 (text a)
                 (match translated with
                  | Some t => JS.or_else t (text a)
                  | None => text a
                  end)
                 (selectedCat a)
                 (JS.or_default urgency Medium)
                 Pending
                 (img a)
                 []
                 now in
             let updated := newComplaint :: complaints a in
             Some (w |> setComplaints updated
                     |> writing (saveComplaintsToStorage updated)
                     |> setText ""
                     |> setImg None))
            (w |> alert "AI Processing Error.") in
        w |> setLoading false
  end.

Definition updateStatus (id : string) (s : Status) (w : World) : World :=
  let updated :=
    map (fun c => if Complaint.id c =? id then Complaint.with_status s c else c)
        (complaints (app w)) in
  w |> setComplaints updated
    |> writing (saveComplaintsToStorage updated).

Definition addComment (id : string) (comment : string) (now : Z) (w : World) : World :=
  if negb (JS.truthy (JS.trim comment)) then w
  else
    let updated :=
      map (fun c =>
             if Complaint.id c =? id
             then Complaint.with_adminComments
                    (Complaint.adminComments c ++ [AdminComment.mk comment now]) c
             else c)
          (complaints (app w)) in
    w |> setComplaints updated
      |> writing (saveComplaintsToStorage updated).

(** The predicate of the [filter] call in [filteredComplaints]. *)
Definition matchesFilters (a : AppState) (c : Complaint.t) : bool :=
  let matchesSearch :=
    JS.includes (JS.toLowerCase (Complaint.id c)) (JS.toLowerCase (searchQuery a)) ||
    JS.includes (JS.toLowerCase (Complaint.englishText c)) (JS.toLowerCase (searchQuery a)) in
  let matchesStatus :=
    match statusFilter a with
    | All => true
    | Only s => bool_decide (Complaint.status c = s)
    end in
  let matchesUrgency :=
    match urgencyFilter a with
    | All => true
    | Only u => bool_decide (Complaint.urgency c = u)
    end in
  let matchesCategory :=
    (categoryFilter a =? "All") || (Complaint.category c =? categoryFilter a) in
  matchesSearch && matchesStatus && matchesUrgency && matchesCategory.

Definition filteredComplaints (a : AppState) : list Complaint.t :=
  List.filter (matchesFilters a) (complaints a).

(** The guard of [submitComplaint] lets the submission through: a user is
    signed in and the text is not blank. *)
Definition submittable (w : World) (cu : UserSession.t) : Prop :=
  currentUser (app w) = Some cu /\ JS.trim (text (app w)) <> "".

(** The account matches what was typed into the login form. *)
Definition matchesCredentials (a : AppState) (u : UserAccount.t) : Prop :=
  UserAccount.username u = userVal a /\ UserAccount.password u = passVal a.

(** ** The application as a state machine *)

(** What the user (or the environment) can do to the page.  Which controls
    are on screen in which view is not modelled: every event is possible in
    every world, so the reachable worlds below include those of the page.
    A submission is one event here; the page further down splits it at its
    [await], for what depends on events that happen in between. *)
Inductive event : Type :=
| Reload                                      (* the page is loaded again *)
| ChangeUserVal (v : string)
| ChangePassVal (v : string)
| ChangeNameVal (v : string)
| ClickRole (r : Role)                        (* the CITIZEN / OFFICIAL buttons *)
| ToggleAuthMode                              (* the Register / Login link *)
| SubmitRegister
| SubmitLogin
| ClickLogout
| ChangeText (v : string)
| ChangeSelectedCat (v : string)
| AttachImage (dataUrl : string)
| SubmitComplaint (rnd : nat) (now : Z) (reply : generateContent)
| ChangeSearchQuery (v : string)
| ChangeStatusFilter (v : Filter Status)
| ClickStatus (id : string) (s : Status)
| EnterRemark (id : string) (comment : string) (now : Z).

Definition handle (e : event) (w : World) : World :=
  match e with
  | Reload => mkWorld initialApp (storage w) (alerts w) |> mountEffect
  | ChangeUserVal v => w |> setUserVal v
  | ChangePassVal v => w |> setPassVal v
  | ChangeNameVal v => w |> setNameVal v
  | ClickRole r => w |> setLoginRole r |> setAuthMode login
  | ToggleAuthMode =>
      w |> setAuthMode (match authMode (app w) with login => register | register => login end)
  | SubmitRegister => handleRegister w
  | SubmitLogin => handleLogin w
  | ClickLogout => handleLogout w
  | ChangeText v => w |> setText v
  | ChangeSelectedCat v => w |> setSelectedCat v
  | AttachImage dataUrl => w |> setImg (Some dataUrl)
  | SubmitComplaint rnd now reply => submitComplaint rnd now reply w
  | ChangeSearchQuery v => w |> setSearchQuery v
  | ChangeStatusFilter v => w |> setStatusFilter v
  | ClickStatus id s => updateStatus id s w
  | EnterRemark id comment now => addComment id comment now w
  end.

(** A browser that has never run the application: both keys are absent. *)
Definition initialWorld : World :=
  mkWorld initialApp (mkStorage None None) [] |> mountEffect.

Definition run (es : list event) (w : World) : World :=
  fold_left (fun w e => handle e w) es w.

Inductive reachable : World -> Prop :=
| reachable_init : reachable initialWorld
| reachable_step e w : reachable w -> reachable (handle e w).

(** The user directory as every handler reads it. *)
Definition directory (w : World) : list UserAccount.t :=
  getUsersFromStorage (storage w).

Definition usernames (users : list UserAccount.t) : list string :=
  map UserAccount.username users.

(** ** The query of the specification *)

(** A capital letter of the ASCII alphabet, by its character code. *)
Definition IsCapital (c : ascii) : Prop :=
  (65 <= nat_of_ascii c)%nat /\ (nat_of_ascii c <= 90)%nat.

(** Two characters are the same letter up to case: they are equal, or one
    is a capital letter and the other the small letter, 32 codes above. *)
Definition SameLetter (c d : ascii) : Prop :=
  c = d \/
  (IsCapital c /\ nat_of_ascii d = (nat_of_ascii c + 32)%nat) \/
  (IsCapital d /\ nat_of_ascii c = (nat_of_ascii d + 32)%nat).

(** Two strings are equal up to letter case: same length, and the same
    letter up to case at every position. *)
Inductive EqualIgnoringCase : string -> string -> Prop :=
| EqualIgnoringCase_nil : EqualIgnoringCase "" ""
| EqualIgnoringCase_cons c d s t :
    SameLetter c d -> EqualIgnoringCase s t ->
    EqualIgnoringCase (String c s) (String d t).

(** [q] occurs in [s] as a contiguous substring, up to letter case. *)
Definition ContainsIgnoringCase (s q : string) : Prop :=
  exists pre m post,
    s = pre +:+ m +:+ post /\ EqualIgnoringCase m q.

(** The string is made of ASCII characters. *)
Definition isASCII (s : string) : bool :=
  forallb (fun c => (nat_of_ascii c <? 128)%nat) (list_ascii_of_string s).

(** The search text and what it is matched against, the identifiers and the
    English texts of the ledger, are ASCII text. *)
Definition asciiSearch (a : AppState) : Prop :=
  isASCII (searchQuery a) = true /\
  forall c, c ∈ complaints a ->
    isASCII (Complaint.id c) = true /\ isASCII (Complaint.englishText c) = true.

(** The conjunction a complaint has to satisfy to be part of the result of
    a query with search text [q] and the three filters. *)
Definition SatisfiesQuery (q : string) (sf : Filter Status) (uf : Filter Urgency)
    (cf : string) (c : Complaint.t) : Prop :=
  (ContainsIgnoringCase (Complaint.id c) q \/
   ContainsIgnoringCase (Complaint.englishText c) q) /\
  (forall s, sf = Only s -> Complaint.status c = s) /\
  (forall u, uf = Only u -> Complaint.urgency c = u) /\
  (cf <> "All" -> Complaint.category c = cf).

(** [Kept P l l']: [l'] is [l] with exactly the elements that satisfy [P]
    kept, each at its place. *)
Inductive Kept {A : Type} (P : A -> Prop) : list A -> list A -> Prop :=
| Kept_nil : Kept P [] []
| Kept_keep x l l' : P x -> Kept P l l' -> Kept P (x :: l) (x :: l')
| Kept_drop x l l' : ~ P x -> Kept P l l' -> Kept P (x :: l) l'.

(** ** Sample data

    A citizen, two complaints and a world in which the citizen is signed in
    with a complaint typed into the form; used to run the handlers on
    concrete inputs. *)

Definition raviAccount : UserAccount.t :=
  UserAccount.mk "ravi" "secret" "Ravi Kumar" user.

Definition pothole : Complaint.t :=
  Complaint.mk "CIT-0042" "ravi" "Ravi Kumar" "sadak pe gaddha hai"
    "There is a pothole on the road" "Roads" High Pending None [] 1700000000000.

Definition streetlight : Complaint.t :=
  Complaint.mk "CIT-0107" "ravi" "Ravi Kumar" "street light band hai"
    "The street light is not working" "Electricity" Medium InProgress None
    [AdminComment.mk "Crew assigned" 1700000360000] 1700000300000.

Definition sampleStorage : localStorage :=
  mkStorage (Some (JSON_stringify [streetlight; pothole]))
            (Some (JSON_stringify [defaultAdmin; raviAccount])).

Definition sampleWorld : World :=
  mkWorld
    (mkApp (Some (UserSession.mk "ravi" user "Ravi Kumar")) login dashboard
       [streetlight; pothole] false "" All All "All"
       "road broken near market" "Roads" None user "ravi" "secret" "")
    sampleStorage [].

(** A run of the page from a fresh browser: a citizen registers, signs in
    and files two complaints; then the official signs in, resolves the second
    complaint, searches and filters. *)
Definition officeEvents : list event :=
  [ChangeUserVal "asha"; ChangePassVal "pw"; ChangeNameVal "Asha Devi"; SubmitRegister;
   ChangePassVal "pw"; SubmitLogin;
   ChangeText "road broken near market"; ChangeSelectedCat "Roads";
   SubmitComplaint 431 1700000900000
     (Fulfilled (Some (JSON_stringify (JsonObject
        (AiResult.mk (Some "Road is broken near the market") (Some High))))));
   ChangeText "nal se paani nahi aa raha"; ChangeSelectedCat "Water";
   SubmitComplaint 7 1700000950000
     (Fulfilled (Some (JSON_stringify (JsonObject
        (AiResult.mk (Some "No water is coming from the tap") (Some Medium))))));
   ClickLogout;
   ChangeUserVal "admin"; ChangePassVal "admin123"; ClickRole admin; SubmitLogin;
   ClickStatus "CIT-0007" Resolved;
   ChangeSearchQuery "ROAD"; ChangeStatusFilter (Only Pending)].

Definition officeWorld : World := run officeEvents initialWorld.

Definition roadComplaint : Complaint.t :=
  Complaint.mk "CIT-0431" "asha" "Asha Devi" "road broken near market"
    "Road is broken near the market" "Roads" High Pending None [] 1700000900000.

Definition waterComplaint : Complaint.t :=
  Complaint.mk "CIT-0007" "asha" "Asha Devi" "nal se paani nahi aa raha"
    "No water is coming from the tap" "Water" Medium Resolved None [] 1700000950000.

(** ** The two dashboards *)

(** [complaints.filter(c => c.userId === currentUser.id)], the list under
    "My Submissions" of the signed-in citizen [cu]. *)
Definition mySubmissions (cu : UserSession.t) (a : AppState) : list Complaint.t :=
  List.filter (fun c => Complaint.userId c =? UserSession.id cu) (complaints a).

(** The four counters on top of the admin dashboard, in the order of the
    source: New, Active, Done, High. *)
Definition countNew (a : AppState) : nat :=
  length (List.filter (fun c => bool_decide (Complaint.status c = Pending)) (complaints a)).

Definition countActive (a : AppState) : nat :=
  length (List.filter (fun c => bool_decide (Complaint.status c = InProgress)) (complaints a)).

Definition countDone (a : AppState) : nat :=
  length (List.filter (fun c => bool_decide (Complaint.status c = Resolved)) (complaints a)).

Definition countHigh (a : AppState) : nat :=
  length (List.filter (fun c => bool_decide (Complaint.urgency c = High) &&
                                bool_decide (Complaint.status c <> Resolved))
            (complaints a)).

(** ** Vocabulary of the further properties *)

(** Every character of the string is white space. *)
Definition AllWhitespace (s : string) : Prop :=
  Forall (fun c => JS.is_whitespace c = true) (list_ascii_of_string s).

(** What of a complaint is fixed when it is created: everything but the
    status and the remarks. *)
Definition createdAs (c : Complaint.t)
  : string * string * string * string * string * string * Urgency * option string * Z :=
  (Complaint.id c, Complaint.userId c, Complaint.userName c, Complaint.originalText c,
   Complaint.englishText c, Complaint.category c, Complaint.urgency c, Complaint.image c,
   Complaint.timestamp c).

(** The number written in a complaint id, read back from the decimal digits
    after the prefix. *)
Definition idNumber (s : string) : option nat :=
  match s with
  | String "C" (String "I" (String "T" (String "-" digits))) =>
      Nat.of_uint <$> NilEmpty.uint_of_string digits
  | _ => None
  end.

(** [lengths_ok k lu]: the [k] numbers from the one whose little-endian
    digits are [lu] on are written with at most four digits. *)
Fixpoint lengths_ok (k : nat) (lu : Decimal.uint) : bool :=
  match k with
  | O => true
  | S k' => (String.length (NilEmpty.string_of_uint (Decimal.rev lu)) <=? 4)%nat
            && lengths_ok k' (Decimal.Little.succ lu)
  end.

(** The session and the view go together, and the session is the one of an
    account of the directory. *)
Definition session_ok (w : World) : Prop :=
  match currentUser (app w) with
  | None => view (app w) = auth
  | Some s =>
      view (app w) = dashboard /\
      exists u, u ∈ directory w /\
        UserAccount.username u = UserSession.id s /\
        UserAccount.role u = UserSession.role s /\
        UserAccount.name u = UserSession.name s
  end.

(** The only official of the directory is the seed account. *)
Definition officials_ok (w : World) : Prop :=
  defaultAdmin ∈ directory w /\
  forall u, u ∈ directory w -> UserAccount.role u = admin -> u = defaultAdmin.

(** The complaint is owned by an account of the directory [d] and carries
    its display name. *)
Definition ownedIn (d : list UserAccount.t) (c : Complaint.t) : Prop :=
  exists u, u ∈ d /\ UserAccount.username u = Complaint.userId c /\
            UserAccount.name u = Complaint.userName c.

(** ** A submission as the page runs it: in two steps

    [submitComplaint] is asynchronous.  The event [SubmitComplaint] above
    takes it as one step; here it is split at its [await], so that other
    events can happen while the reply of the model is awaited. *)

(** What the rest of [submitComplaint] still holds, after the [await], of
    the render in which the form was submitted. *)
Record Closure := mkClosure {
  closure_currentUser : UserSession.t;
  closure_text : string;
  closure_selectedCat : string;
  closure_img : option string;
  closure_complaints : list Complaint.t
}.

(** [submitComplaint] up to the [await]: the guard and [setLoading(true)]. *)
Definition submitComplaint_call (w : World) : World * option Closure :=
  let a := app w in
  match currentUser a with
  | None => (w, None)
  | Some currentUser =>
      if negb (JS.truthy (JS.trim (text a))) then (w, None)
      else (w |> setLoading true,
            Some (mkClosure currentUser (text a) (selectedCat a) (img a) (complaints a)))
  end.

(** [submitComplaint] from the [await] on, in the world as it is when the
    reply arrives; [text], [selectedCat], [img], [currentUser] and
    [complaints] are those of the closure. *)
Definition submitComplaint_resume (rnd : nat) (now : Z) (reply : generateContent)
    (k : Closure) (w : World) : World :=
  let w :=
    try_catch
      (response_text ← await reply;
       result ← JSON_parse (text_or_empty_object response_text);
       translated ← get_translated result;
       urgency ← get_urgency result;
       let newComplaint :=
         Complaint.mk
           (complaintId rnd)
           (UserSession.id (closure_currentUser k))
           (UserSession.name (closure_currentUser k))
           (closure_text k)
           (match translated with
            | Some t => JS.or_else t (closure_text k)
            | None => closure_text k
            end)
           (closure_selectedCat k)
           (JS.or_default urgency Medium)
           Pending
           (closure_img k)
           []
           now in
       let updated := newComplaint :: closure_complaints k in
       Some (w |> setComplaints updated
               |> writing (saveComplaintsToStorage updated)
               |> setText ""
               |> setImg None))
      (w |> alert "AI Processing Error.") in
  w |> setLoading false.

(** The page: the world, and the closure of the submission that is awaiting
    its reply, if there is one. *)
Record Page := mkPage {
  world : World;
  awaiting : option Closure
}.

Inductive action : Type :=
| Event (e : event)          (* any event but a submission *)
| SubmitForm                 (* the FILE COMPLAINT button; it is disabled while [loading] *)
| ModelAnswers (rnd : nat) (now : Z) (reply : generateContent).
                             (* the call to the model settles *)

Definition act (x : action) (p : Page) : Page :=
  match x with
  | Event Reload => mkPage (handle Reload (world p)) None
  | Event (SubmitComplaint _ _ _) => p
  | Event e => mkPage (handle e (world p)) (awaiting p)
  | SubmitForm =>
      if loading (app (world p)) then p
      else let (w, k) := submitComplaint_call (world p) in mkPage w k
  | ModelAnswers rnd now reply =>
      match awaiting p with
      | Some k => mkPage (submitComplaint_resume rnd now reply k (world p)) None
      | None => p
      end
  end.

Definition acts (xs : list action) (p : Page) : Page :=
  fold_left (fun p x => act x p) xs p.



(** An event that can happen while a submission awaits its reply, and leaves
    it waiting: any event but a reload, which ends the page, and a submission
    in one step. *)
Definition overlaps (e : event) : bool :=
  match e with
  | Reload | SubmitComplaint _ _ _ => false
  | _ => true
  end.


(** * Properties *)

(** ** The handlers at work *)

Example complaintId_padded :
  complaintId 7 = "CIT-0007" /\ complaintId 0 = "CIT-0000" /\ complaintId 431 = "CIT-0431".
Proof. repeat split. Qed.

(** A new citizen registers, signs in and files a complaint; the reply of
    the model is the one asked for. *)
Example register_login_submit :
  let reply := Fulfilled (Some (JSON_stringify (JsonObject
                 (AiResult.mk (Some "Road is broken near the market") (Some High))))) in
  let w := run [ChangeUserVal "asha"; ChangePassVal "pw"; ChangeNameVal "Asha Devi";
                SubmitRegister; ChangePassVal "pw"; SubmitLogin;
                ChangeText "road broken near market"; ChangeSelectedCat "Roads";
                SubmitComplaint 431 1700000900000 reply] initialWorld in
  currentUser (app w) = Some (UserSession.mk "asha" user "Asha Devi") /\
  complaints (app w) =
    [Complaint.mk "CIT-0431" "asha" "Asha Devi" "road broken near market"
       "Road is broken near the market" "Roads" High Pending None [] 1700000900000] /\
  getComplaintsFromStorage (storage w) = complaints (app w) /\
  directory w = [defaultAdmin; UserAccount.mk "asha" "pw" "Asha Devi" user] /\
  text (app w) = "".
Proof. vm_compute. repeat split. Qed.

(** Two status updates in a row leave one record, with the last status. *)
Example pending_inProgress_resolved :
  let w := run [ClickStatus "CIT-0042" InProgress; ClickStatus "CIT-0042" Resolved]
               sampleWorld in
  complaints (app w) = [streetlight; Complaint.with_status Resolved pothole] /\
  getComplaintsFromStorage (storage w) = complaints (app w).
Proof. vm_compute. repeat split. Qed.

(** ** Strings *)

Section Strings.

Lemma startsWith_spec s t :
  JS.startsWith s t = true <-> exists post, s = t +:+ post.
Proof.
  revert s. induction t as [|b t IH]; intros s; simpl.
  - split; [intros _; exists s; reflexivity | intros _; by destruct s].
  - destruct s as [|a s]; simpl.
    + split; [discriminate | intros [post H]; discriminate].
    + rewrite andb_true_iff, IH, Ascii.eqb_eq. split.
      * intros [-> [post ->]]. exists post. reflexivity.
      * intros [post H]. injection H as -> ->. eauto.
Qed.

Lemma includes_spec s t :
  JS.includes s t = true <-> exists pre post, s = pre +:+ t +:+ post.
Proof.
  induction s as [|a s IH].
  - change (JS.includes "" t) with (JS.startsWith "" t || false).
    rewrite orb_false_r, startsWith_spec. split.
    + intros [post H]. exists "", post. exact H.
    + intros [pre [post H]]. destruct pre; [eauto | discriminate].
  - change (JS.includes (String a s) t)
      with (JS.startsWith (String a s) t || JS.includes s t).
    rewrite orb_true_iff, startsWith_spec, IH. split.
    + intros [[post H] | [pre [post H]]].
      * exists "", post. exact H.
      * exists (String a pre), post. rewrite H. reflexivity.
    + intros [pre [post H]]. destruct pre as [|a' pre]; simpl in H.
      * left. eauto.
      * right. injection H as -> H. eauto.
Qed.

Lemma toLowerCase_app s t :
  JS.toLowerCase (s +:+ t) = JS.toLowerCase s +:+ JS.toLowerCase t.
Proof. induction s as [|a s IH]; simpl; [reflexivity | by rewrite IH]. Qed.

(** [toLowerCase] works character by character, so a split of the
    lower-cased text comes from a split of the text. *)
Lemma toLowerCase_split s x y :
  JS.toLowerCase s = x +:+ y ->
  exists s1 s2, s = s1 +:+ s2 /\ JS.toLowerCase s1 = x /\ JS.toLowerCase s2 = y.
Proof.
  revert s. induction x as [|b x IH]; intros s H; simpl in H.
  - exists "", s. auto.
  - destruct s as [|a s]; simpl in H; [discriminate|].
    injection H as Ha H. destruct (IH _ H) as (s1 & s2 & -> & H1 & H2).
    exists (String a s1), s2. simpl. by rewrite Ha, H1.
Qed.

Lemma lower_ascii_code c :
  nat_of_ascii (JS.lower_ascii c) =
  if (65 <=? nat_of_ascii c)%nat && (nat_of_ascii c <=? 90)%nat
  then (nat_of_ascii c + 32)%nat else nat_of_ascii c.
Proof.
  unfold JS.lower_ascii.
  destruct ((65 <=? nat_of_ascii c)%nat && (nat_of_ascii c <=? 90)%nat) eqn:E; [|reflexivity].
  apply andb_true_iff in E as [E1%Nat.leb_le E2%Nat.leb_le].
  apply nat_ascii_embedding. lia.
Qed.

Lemma nat_of_ascii_inj c d : nat_of_ascii c = nat_of_ascii d -> c = d.
Proof. intros E. by rewrite <- (ascii_nat_embedding c), <- (ascii_nat_embedding d), E. Qed.

(** The fold of the code sends two characters to the same one exactly when
    they are the same letter up to case. *)
Lemma SameLetter_lower c d : SameLetter c d <-> JS.lower_ascii c = JS.lower_ascii d.
Proof.
  unfold SameLetter, IsCapital. split.
  - intros H. apply nat_of_ascii_inj. rewrite !lower_ascii_code.
    destruct H as [-> | [[[? ?] E] | [[? ?] E]]];
      repeat match goal with
             | |- context [(?a <=? ?b)%nat] => destruct (Nat.leb_spec a b)
             end; simpl; lia.
  - intros H. apply (f_equal nat_of_ascii) in H. rewrite !lower_ascii_code in H.
    repeat match type of H with
           | context [(?a <=? ?b)%nat] => destruct (Nat.leb_spec a b)
           end; simpl in H;
      first [ left; apply nat_of_ascii_inj; lia
            | right; left; lia
            | right; right; lia ].
Qed.

Lemma EqualIgnoringCase_lower s t :
  EqualIgnoringCase s t <-> JS.toLowerCase s = JS.toLowerCase t.
Proof.
  split.
  - induction 1 as [|c d s t Hcd _ IH]; simpl; [reflexivity|].
    apply SameLetter_lower in Hcd. by rewrite Hcd, IH.
  - revert t. induction s as [|c s IH]; intros [|d t] H; simpl in H; try discriminate.
    + constructor.
    + injection H as Hcd H. constructor; [by apply SameLetter_lower | by apply IH].
Qed.

Lemma includes_lower_spec s q :
  JS.includes (JS.toLowerCase s) (JS.toLowerCase q) = true <-> ContainsIgnoringCase s q.
Proof.
  rewrite includes_spec. split.
  - intros (pre & post & H).
    destruct (toLowerCase_split _ _ _ H) as (s1 & s23 & -> & H1 & H23).
    destruct (toLowerCase_split _ _ _ H23) as (s2 & s3 & -> & H2 & H3).
    exists s1, s2, s3. split; [reflexivity | by apply EqualIgnoringCase_lower].
  - intros (pre & m & post & -> & Hm%EqualIgnoringCase_lower).
    exists (JS.toLowerCase pre), (JS.toLowerCase post).
    by rewrite !toLowerCase_app, Hm.
Qed.

Lemma includes_empty s : JS.includes s "" = true.
Proof. destruct s; reflexivity. Qed.

End Strings.

(** ** The query *)

Section Query.

Lemma matchesFilters_spec a c :
  matchesFilters a c = true <->
  SatisfiesQuery (searchQuery a) (statusFilter a) (urgencyFilter a) (categoryFilter a) c.
Proof.
  assert (Hs : match statusFilter a with
               | All => true
               | Only s => bool_decide (Complaint.status c = s)
               end = true <->
               (forall s, statusFilter a = Only s -> Complaint.status c = s)).
  { destruct (statusFilter a) as [|s].
    - split; [intros _ ? [=] | done].
    - rewrite bool_decide_eq_true. split; [by intros ? ? [= <-] | auto]. }
  assert (Hu : match urgencyFilter a with
               | All => true
               | Only u => bool_decide (Complaint.urgency c = u)
               end = true <->
               (forall u, urgencyFilter a = Only u -> Complaint.urgency c = u)).
  { destruct (urgencyFilter a) as [|u].
    - split; [intros _ ? [=] | done].
    - rewrite bool_decide_eq_true. split; [by intros ? ? [= <-] | auto]. }
  assert (Hc : (categoryFilter a =? "All") || (Complaint.category c =? categoryFilter a) = true <->
               (categoryFilter a <> "All" -> Complaint.category c = categoryFilter a)).
  { rewrite orb_true_iff, !String.eqb_eq.
    destruct (decide (categoryFilter a = "All")); tauto. }
  unfold matchesFilters, SatisfiesQuery.
  rewrite !andb_true_iff, orb_true_iff, !includes_lower_spec, Hs, Hu, Hc. tauto.
Qed.




(** A filtering determines its result. *)
Lemma Kept_functional {A : Type} (P : A -> Prop) l l1 l2 :
  Kept P l l1 -> Kept P l l2 -> l1 = l2.
Proof.
  intros H1. revert l2. induction H1; intros l2 H2; inversion H2; subst;
    try contradiction; [reflexivity | f_equal; auto | auto].
Qed.


End Query.

(** Proves that two literal strings are equal up to letter case. *)
Ltac same_letters :=
  repeat (apply EqualIgnoringCase_cons;
          [ first [ left; reflexivity
                  | right; left; split; [split; apply Nat.leb_le; reflexivity | reflexivity]
                  | right; right; split; [split; apply Nat.leb_le; reflexivity | reflexivity] ]
          | ]);
  apply EqualIgnoringCase_nil.



(** ** Status updates *)

Section UpdateStatus.

Lemma lookup_map {A B : Type} (f : A -> B) (l : list A) (i : nat) :
  map f l !! i = f <$> (l !! i).
Proof.
  revert i. induction l as [|x l IH]; intros [|i]; simpl; try reflexivity.
  apply IH.
Qed.

Lemma map_id_on {A : Type} (f : A -> A) (l : list A) :
  (forall x, x ∈ l -> f x = x) -> map f l = l.
Proof.
  induction l as [|x l IH]; intros H; simpl; [done|].
  rewrite H by (apply elem_of_cons; auto).
  rewrite IH; [done|]. intros y Hy. apply H, elem_of_cons. auto.
Qed.

End UpdateStatus.

(** C5 (amended).  For every ledger, id and new status: when no complaint
    has the id, [updateStatus] leaves the ledger as it is; in general the
    ledger keeps its length and order, a complaint with another id is
    untouched, and every complaint with the id (identifiers are drawn at
    random and can repeat) has its status replaced by the new one and every
    other field unchanged; when exactly one complaint has the id, that record
    is the only one that changes.  The resulting collection is what is
    written under the complaints key; nothing else in the world changes. *)
Theorem updateStatus_frame (id : string) (s : Status) (w : World) :
  let old := complaints (app w) in
  let w' := updateStatus id s w in
  let new := complaints (app w') in
  (id ∉ map Complaint.id old -> new = old) /\
  length new = length old /\
  (forall i c, old !! i = Some c ->
     (Complaint.id c <> id -> new !! i = Some c) /\
     (Complaint.id c = id ->
        exists c', new !! i = Some c' /\
          Complaint.status c' = s /\
          Complaint.id c' = Complaint.id c /\
          Complaint.userId c' = Complaint.userId c /\
          Complaint.userName c' = Complaint.userName c /\
          Complaint.originalText c' = Complaint.originalText c /\
          Complaint.englishText c' = Complaint.englishText c /\
          Complaint.category c' = Complaint.category c /\
          Complaint.urgency c' = Complaint.urgency c /\
          Complaint.image c' = Complaint.image c /\
          Complaint.adminComments c' = Complaint.adminComments c /\
          Complaint.timestamp c' = Complaint.timestamp c)) /\
  DB_KEY (storage w') = Some (JSON_stringify new) /\
  getComplaintsFromStorage (storage w') = new /\
  USERS_KEY (storage w') = USERS_KEY (storage w) /\
  alerts w' = alerts w /\
  app w' = app (setComplaints new w) /\
  (forall before c after,
     old = before ++ c :: after ->
     Complaint.id c = id ->
     id ∉ map Complaint.id before ->
     id ∉ map Complaint.id after ->
     new = before ++ Complaint.with_status s c :: after).
Proof.
  intros old w' new. subst old w' new. unfold updateStatus. simpl.
  assert (Hfix : forall l : list Complaint.t, id ∉ map Complaint.id l ->
            map (fun c => if Complaint.id c =? id then Complaint.with_status s c else c) l = l).
  { intros l Hid. apply map_id_on. intros c Hc.
    destruct (String.eqb_spec (Complaint.id c) id) as [E|E]; [|done].
    exfalso. apply Hid. rewrite <- E. apply list_elem_of_In, in_map.
    by apply list_elem_of_In. }
  split; [|split; [|split]].
  - apply Hfix.
  - apply length_map.
  - intros i c Hi. rewrite lookup_map, Hi. simpl. split.
    + intros Hne. by destruct (String.eqb_spec (Complaint.id c) id).
    + intros E. rewrite (proj2 (String.eqb_eq _ _) E).
      eexists. split; [reflexivity|]. simpl. repeat split.
  - repeat split. intros before c after -> E Hb Ha.
    rewrite map_app. simpl. rewrite (proj2 (String.eqb_eq _ _) E).
    by rewrite !Hfix.
Qed.

Lemma updateStatus_frame_witness :
  complaints (app (updateStatus "CIT-9999" Resolved sampleWorld)) = [streetlight; pothole] /\
  complaints (app (updateStatus "CIT-0042" Resolved sampleWorld)) !! 0%nat = Some streetlight /\
  (exists c', complaints (app (updateStatus "CIT-0042" Resolved sampleWorld)) !! 1%nat = Some c' /\
              Complaint.status c' = Resolved) /\
  complaints (app (updateStatus "CIT-0042" Resolved sampleWorld))
    = [streetlight] ++ Complaint.with_status Resolved pothole :: [].
Proof.
  split; [|split; [|split]].
  - refine (proj1 (updateStatus_frame "CIT-9999" Resolved sampleWorld) _).
    intros H. apply list_elem_of_In in H. simpl in H.
    destruct H as [H|[H|[]]]; discriminate.
  - refine (proj1 (proj1 (proj2 (proj2 (updateStatus_frame "CIT-0042" Resolved sampleWorld)))
                     0%nat streetlight eq_refl) _).
    discriminate.
  - destruct (proj2 (proj1 (proj2 (proj2 (updateStatus_frame "CIT-0042" Resolved sampleWorld)))
                       1%nat pothole eq_refl) eq_refl) as (c' & H1 & H2 & _).
    exists c'. split; assumption.
  - refine (proj2 (proj2 (proj2 (proj2 (proj2 (proj2 (proj2 (proj2
              (updateStatus_frame "CIT-0042" Resolved sampleWorld))))))))
              [streetlight] pothole [] eq_refl eq_refl _ _).
    + intros [H|H%elem_of_nil]%elem_of_cons; [discriminate | exact H].
    + by intros H%elem_of_nil.
Defined.

(** A ledger the application reaches by two submissions with the same draw:
    two different complaints have the identifier [CIT-0007], and a status
    update with that identifier changes both of them, not one record
    only. *)
Lemma updateStatus_repeated_id :
  let w := submitComplaint 7 1700000600000 (Fulfilled None)
             (setText "paani nahi aa raha"
                (submitComplaint 7 1700000500000 (Fulfilled None) sampleWorld)) in
  exists c1 c2,
    complaints (app w) = c2 :: c1 :: [streetlight; pothole] /\
    c1 <> c2 /\
    Complaint.id c1 = "CIT-0007" /\ Complaint.id c2 = "CIT-0007" /\
    Complaint.status c1 = Pending /\ Complaint.status c2 = Pending /\
    complaints (app (updateStatus "CIT-0007" Resolved w))
    = Complaint.with_status Resolved c2 :: Complaint.with_status Resolved c1
        :: [streetlight; pothole].
Proof.
  eexists _, _. split; [vm_compute; reflexivity|].
  split; [discriminate|]. repeat split.
Qed.


(** ** Submission *)

Section Submission.

Lemma truthy_spec s : JS.truthy s = true <-> s <> "".
Proof. destruct s; simpl; split; congruence. Qed.

Lemma submitComplaint_guard rnd now reply w :
  (forall cu, ~ submittable w cu) -> submitComplaint rnd now reply w = w.
Proof.
  intros H. unfold submitComplaint.
  destruct (currentUser (app w)) as [cu|] eqn:Ecu; [|reflexivity].
  destruct (JS.truthy (JS.trim (text (app w)))) eqn:Et; [|reflexivity].
  exfalso. apply (H cu). split; [exact Ecu | by apply truthy_spec].
Qed.

Lemma submitComplaint_thrown rnd now reply w cu :
  submittable w cu -> classification reply = None ->
  submitComplaint rnd now reply w =
  w |> setLoading true |> alert "AI Processing Error." |> setLoading false.
Proof.
  intros [Ecu Et] Hc. apply truthy_spec in Et.
  unfold submitComplaint. rewrite Ecu, Et. simpl.
  unfold classification in Hc.
  destruct (await reply) as [resp|]; simpl in *; [|reflexivity].
  destruct (JSON_parse (text_or_empty_object resp)) as [result|]; simpl in *; [|reflexivity].
  destruct (get_translated result) as [tr|]; simpl in *; [|reflexivity].
  destruct (get_urgency result) as [ur|]; simpl in *; [discriminate | reflexivity].
Qed.

Lemma submitComplaint_returned rnd now reply w cu translated urgency :
  submittable w cu -> classification reply = Some (translated, urgency) ->
  submitComplaint rnd now reply w =
  let a := app w in
  let newComplaint :=
    Complaint.mk (complaintId rnd) (UserSession.id cu) (UserSession.name cu) (text a)
      (match translated with Some t => JS.or_else t (text a) | None => text a end)
      (selectedCat a) (JS.or_default urgency Medium) Pending (img a) [] now in
  let updated := newComplaint :: complaints a in
  mkWorld
    (mkApp (currentUser a) (authMode a) (view a) updated false (searchQuery a)
       (statusFilter a) (urgencyFilter a) (categoryFilter a) "" (selectedCat a) None
       (loginRole a) (userVal a) (passVal a) (nameVal a))
    (saveComplaintsToStorage updated (storage w))
    (alerts w).
Proof.
  intros [Ecu Et] Hc. apply truthy_spec in Et.
  unfold submitComplaint. cbv zeta. rewrite Ecu, Et. simpl.
  unfold classification in Hc.
  destruct (await reply) as [resp|]; simpl in *; [|discriminate].
  destruct (JSON_parse (text_or_empty_object resp)) as [result|]; simpl in *; [|discriminate].
  destruct (get_translated result) as [tr|]; simpl in *; [|discriminate].
  destruct (get_urgency result) as [ur|]; simpl in *; [|discriminate].
  injection Hc as -> ->.
  unfold setLoading, setImg, setText, setComplaints, with_app. simpl.
  rewrite ?Ecu. reflexivity.
Qed.

End Submission.

(** C1 (amended).  For every submission that passes the guard and whose
    classification returns, [submitComplaint] creates a record with status
    [Pending], no remark, the selected category, the submitted text as
    original text, the signed-in user as owner, the attached image and the
    current time; its English text is the translated text of the reply when
    that field is present and not empty, and the submitted text when the
    field is absent or the empty string; its urgency is the urgency of the
    reply, or [Medium] when that field is absent.  The record is put in front
    of the ledger and the new ledger is written under the complaints key. *)
Theorem submitComplaint_creates_record rnd now reply w cu translated urgency :
  submittable w cu ->
  classification reply = Some (translated, urgency) ->
  let w' := submitComplaint rnd now reply w in
  exists c,
    complaints (app w') = c :: complaints (app w) /\
    DB_KEY (storage w') = Some (JSON_stringify (c :: complaints (app w))) /\
    USERS_KEY (storage w') = USERS_KEY (storage w) /\
    Complaint.status c = Pending /\
    Complaint.adminComments c = [] /\
    Complaint.category c = selectedCat (app w) /\
    (forall t, translated = Some t -> t <> "" -> Complaint.englishText c = t) /\
    (translated = None \/ translated = Some "" -> Complaint.englishText c = text (app w)) /\
    (forall u, urgency = Some u -> Complaint.urgency c = u) /\
    (urgency = None -> Complaint.urgency c = Medium) /\
    Complaint.id c = complaintId rnd /\
    Complaint.userId c = UserSession.id cu /\
    Complaint.userName c = UserSession.name cu /\
    Complaint.originalText c = text (app w) /\
    Complaint.image c = img (app w) /\
    Complaint.timestamp c = now.
Proof.
  intros Hs Hc w'. subst w'.
  rewrite (submitComplaint_returned _ _ _ _ _ _ _ Hs Hc). cbv zeta.
  eexists. split; [reflexivity|]. simpl. repeat split.
  - intros t -> Ht. destruct t; [done | reflexivity].
  - by intros [-> | ->].
  - by intros u ->.
  - by intros ->.
Qed.

Lemma submitComplaint_creates_record_witness :
  exists c,
    complaints (app (submitComplaint 42 1700000500000
      (Fulfilled (Some (JSON_stringify (JsonObject
         (AiResult.mk (Some "Road is broken near the market") (Some High))))))
      sampleWorld)) = c :: [streetlight; pothole] /\
    Complaint.status c = Pending /\
    Complaint.category c = "Roads" /\
    Complaint.urgency c = High /\
    Complaint.englishText c = "Road is broken near the market".
Proof.
  assert (Hs : submittable sampleWorld (UserSession.mk "ravi" user "Ravi Kumar")).
  { split; [reflexivity | vm_compute; discriminate]. }
  pose proof (submitComplaint_creates_record 42 1700000500000
    (Fulfilled (Some (JSON_stringify (JsonObject
       (AiResult.mk (Some "Road is broken near the market") (Some High))))))
    sampleWorld _ _ _ Hs eq_refl) as H.
  cbv zeta in H.
  destruct H as (c & H1 & _ & _ & H2 & _ & H3 & H4 & _ & H5 & _).
  exists c. repeat split.
  - exact H1.
  - exact H2.
  - exact H3.
  - exact (H5 High eq_refl).
  - apply (H4 _ eq_refl). discriminate.
Defined.

(** A reply whose translated text is present but empty: the record does not
    carry the translated text of the reply, it carries the submitted
    text. *)
Lemma submitComplaint_empty_translation :
  let o := AiResult.mk (Some "") (Some High) in
  let w' := submitComplaint 42 1700000500000
              (Fulfilled (Some (JSON_stringify (JsonObject o)))) sampleWorld in
  exists c,
    complaints (app w') = c :: complaints (app sampleWorld) /\
    AiResult.translated o = Some "" /\
    Complaint.englishText c = "road broken near market" /\
    Complaint.englishText c <> "".
Proof.
  eexists. split; [vm_compute; reflexivity|].
  split; [reflexivity|]. split; [reflexivity|]. discriminate.
Qed.

(** C3.  When the call to the model fails (the promise is rejected, or
    anything in the [try] block throws), the submission is aborted: the
    ledger in memory and everything in storage are as before, the text and
    the image of the form are kept, and the only trace is the error message.
    When the classification returns, the text of the form is cleared. *)
Theorem submitComplaint_failure_aborts rnd now reply w :
  let w' := submitComplaint rnd now reply w in
  (reply = Rejected \/ classification reply = None ->
     complaints (app w') = complaints (app w) /\
     storage w' = storage w /\
     text (app w') = text (app w) /\
     img (app w') = img (app w) /\
     (forall cu, submittable w cu -> alerts w' = alerts w ++ ["AI Processing Error."])) /\
  (forall cu r, submittable w cu -> classification reply = Some r ->
     text (app w') = "").
Proof.
  intros w'. subst w'. split.
  - intros H. assert (Hc : classification reply = None) by (by destruct H as [-> | H]).
    clear H.
    destruct (currentUser (app w)) as [cu|] eqn:Ecu.
    + destruct (decide (JS.trim (text (app w)) = "")) as [Et|Et].
      * rewrite submitComplaint_guard.
        { repeat split. intros cu' [_ H]. contradiction. }
        intros cu' [_ H]. contradiction.
      * rewrite (submitComplaint_thrown _ _ _ _ cu (conj Ecu Et) Hc).
        repeat split.
    + rewrite submitComplaint_guard.
      { repeat split. intros cu' [H _]. congruence. }
      intros cu' [H _]. congruence.
  - intros cu [translated urgency] Hs Hc.
    by rewrite (submitComplaint_returned _ _ _ _ _ _ _ Hs Hc).
Qed.

Lemma submitComplaint_failure_aborts_witness :
  (let w' := submitComplaint 42 1700000500000 Rejected sampleWorld in
   complaints (app w') = [streetlight; pothole] /\
   storage w' = sampleStorage /\
   text (app w') = "road broken near market") /\
  text (app (submitComplaint 42 1700000500000
    (Fulfilled (Some (JSON_stringify (JsonObject (AiResult.mk None (Some Low))))))
    sampleWorld)) = "".
Proof.
  assert (Hs : submittable sampleWorld (UserSession.mk "ravi" user "Ravi Kumar")).
  { split; [reflexivity | vm_compute; discriminate]. }
  split.
  - pose proof (proj1 (submitComplaint_failure_aborts 42 1700000500000 Rejected sampleWorld)
                  (or_introl eq_refl)) as (H1 & H2 & H3 & _).
    cbv zeta. split; [exact H1 | split; [exact H2 | exact H3]].
  - exact (proj2 (submitComplaint_failure_aborts 42 1700000500000
      (Fulfilled (Some (JSON_stringify (JsonObject (AiResult.mk None (Some Low))))))
      sampleWorld) _ (None, Some Low) Hs eq_refl).
Defined.

(** C9 (amended).  For a submission that passes the guard and whose call
    is fulfilled: when the reply text cannot be parsed as JSON (or is the
    JSON [null]) the submission is aborted like any other failure, with the
    ledger, the storage and the form text unchanged and the error message
    shown; when the reply text is absent or empty, or parses to a value that
    has neither field, the submission is completed with the fallback, the
    submitted text as English text and [Medium] as urgency. *)
Theorem submitComplaint_reply_shapes rnd now resp w cu :
  submittable w cu ->
  let w' := submitComplaint rnd now (Fulfilled resp) w in
  (resp = Some Garbled \/ resp = Some (JSON_stringify JsonNull) ->
     complaints (app w') = complaints (app w) /\
     storage w' = storage w /\
     text (app w') = text (app w) /\
     alerts w' = alerts w ++ ["AI Processing Error."]) /\
  (resp = None \/ resp = Some Blank \/
   resp = Some (JSON_stringify JsonOther) \/
   resp = Some (JSON_stringify (JsonObject (AiResult.mk None None))) ->
     exists c,
       complaints (app w') = c :: complaints (app w) /\
       DB_KEY (storage w') = Some (JSON_stringify (c :: complaints (app w))) /\
       Complaint.englishText c = text (app w) /\
       Complaint.urgency c = Medium /\
       Complaint.status c = Pending /\
       alerts w' = alerts w).
Proof.
  intros Hs w'. subst w'. split.
  - intros H.
    assert (Hc : classification (Fulfilled resp) = None) by (by destruct H as [-> | ->]).
    rewrite (submitComplaint_thrown _ _ _ _ _ Hs Hc). repeat split.
  - intros H.
    assert (Hc : classification (Fulfilled resp) = Some (None, None))
      by (by destruct H as [-> | [-> | [-> | ->]]]).
    rewrite (submitComplaint_returned _ _ _ _ _ _ _ Hs Hc). cbv zeta.
    eexists. split; [reflexivity|]. repeat split.
Qed.

Lemma submitComplaint_reply_shapes_witness :
  (let w' := submitComplaint 42 1700000500000 (Fulfilled (Some (JSON_stringify JsonNull)))
               sampleWorld in
   complaints (app w') = [streetlight; pothole] /\ storage w' = sampleStorage) /\
  exists c,
    complaints (app (submitComplaint 42 1700000500000 (Fulfilled None) sampleWorld))
      = c :: [streetlight; pothole] /\
    Complaint.englishText c = "road broken near market" /\
    Complaint.urgency c = Medium.
Proof.
  assert (Hs : submittable sampleWorld (UserSession.mk "ravi" user "Ravi Kumar")).
  { split; [reflexivity | vm_compute; discriminate]. }
  split.
  - pose proof (proj1 (submitComplaint_reply_shapes 42 1700000500000
                         (Some (JSON_stringify JsonNull)) sampleWorld _ Hs)
                  (or_intror eq_refl)) as (H1 & H2 & _).
    cbv zeta. split; [exact H1 | exact H2].
  - pose proof (proj2 (submitComplaint_reply_shapes 42 1700000500000 None sampleWorld _ Hs)
                  (or_introl eq_refl)) as (c & H1 & _ & H2 & H3 & _).
    exists c. split; [exact H1 | split; [exact H2 | exact H3]].
Defined.

(** A reply that is not JSON: the submission is not completed with the
    fallback, it is aborted. *)
Lemma submitComplaint_unparseable_reply :
  let w' := submitComplaint 42 1700000500000 (Fulfilled (Some Garbled)) sampleWorld in
  submittable sampleWorld (UserSession.mk "ravi" user "Ravi Kumar") /\
  complaints (app w') = complaints (app sampleWorld) /\
  storage w' = storage sampleWorld /\
  alerts w' = ["AI Processing Error."].
Proof.
  split; [split; [reflexivity | vm_compute; discriminate]|].
  vm_compute. repeat split.
Qed.

(** ** The user directory *)

Section Directory.

Lemma find_first {A : Type} (f : A -> bool) (l : list A) :
  match find f l with
  | Some x => exists l1 l2, l = l1 ++ x :: l2 /\ f x = true /\ forall y, y ∈ l1 -> f y = false
  | None => forall y, y ∈ l -> f y = false
  end.
Proof.
  induction l as [|x l IH]; simpl.
  - intros y Hy. by apply elem_of_nil in Hy.
  - destruct (f x) eqn:E.
    + exists [], l. repeat split; [exact E|]. intros y Hy. by apply elem_of_nil in Hy.
    + destruct (find f l) as [z|].
      * destruct IH as (l1 & l2 & -> & Hz & Hl1). exists (x :: l1), l2.
        repeat split; [exact Hz|]. intros y [->|Hy]%elem_of_cons; auto.
      * intros y [->|Hy]%elem_of_cons; auto.
Qed.

Lemma find_username users x :
  match find (fun u => UserAccount.username u =? x) users with
  | Some u => u ∈ users /\ UserAccount.username u = x /\ x ∈ usernames users
  | None => x ∉ usernames users
  end.
Proof.
  pose proof (find_first (fun u => UserAccount.username u =? x) users) as H.
  destruct (find _ users) as [u|].
  - destruct H as (l1 & l2 & -> & Hu%String.eqb_eq & _).
    assert (u ∈ l1 ++ u :: l2) by (apply elem_of_app; right; apply elem_of_cons; auto).
    repeat split; [done..|]. subst x. apply list_elem_of_In, in_map. by apply list_elem_of_In.
  - intros Hx%list_elem_of_In%in_map_iff. destruct Hx as (u & Hu & Hin%list_elem_of_In).
    specialize (H u Hin). simpl in H. apply String.eqb_neq in H. contradiction.
Qed.

Lemma getUsersFromStorage_absent ls :
  USERS_KEY ls = None \/ USERS_KEY ls = Some Blank ->
  getUsersFromStorage ls = [defaultAdmin].
Proof. unfold getUsersFromStorage. by intros [-> | ->]. Qed.

Lemma getUsersFromStorage_garbled ls :
  USERS_KEY ls = Some Garbled -> getUsersFromStorage ls = [].
Proof. unfold getUsersFromStorage. by intros ->. Qed.

Lemma getUsersFromStorage_stored ls us :
  USERS_KEY ls = Some (JSON_stringify us) ->
  ("admin" ∈ usernames us /\ getUsersFromStorage ls = us) \/
  (("admin" ∉ usernames us) /\ getUsersFromStorage ls = us ++ [defaultAdmin]).
Proof.
  unfold getUsersFromStorage. intros ->. simpl.
  pose proof (find_username us "admin") as H.
  destruct (find _ us) as [u|]; [left | right]; intuition.
Qed.

Lemma usernames_app us vs : usernames (us ++ vs) = usernames us ++ usernames vs.
Proof. apply map_app. Qed.

(** Whatever the users key holds, the loaded directory has no repeated
    identifier as soon as the stored collection has none. *)
Lemma getUsersFromStorage_NoDup ls us :
  USERS_KEY ls = Some (JSON_stringify us) ->
  NoDup (usernames us) -> NoDup (usernames (getUsersFromStorage ls)).
Proof.
  intros Hls Hnd. destruct (getUsersFromStorage_stored ls us Hls) as [[_ ->] | [Hn ->]].
  - exact Hnd.
  - rewrite usernames_app. apply NoDup_app. split; [exact Hnd|]. split.
    + intros x Hx [->|H]%elem_of_cons; [contradiction | by apply elem_of_nil in H].
    + apply NoDup_singleton.
Qed.

End Directory.

(** C2 (amended).  Loading the user directory appends the hardcoded seed
    account (identifier [admin], role official) exactly when the stored
    collection, or the empty collection when the key is absent or empty, has
    no record with identifier [admin]; text that cannot be parsed loads as
    the empty directory, with no seed.  Loading a saved directory again adds
    no second seed.  Loading does not write: a login, which loads the
    directory, leaves storage as it is. *)
Theorem getUsersFromStorage_seed (ls : localStorage) :
  (USERS_KEY ls = None \/ USERS_KEY ls = Some Blank ->
     getUsersFromStorage ls = [defaultAdmin]) /\
  (forall us, USERS_KEY ls = Some (JSON_stringify us) ->
     ("admin" ∉ usernames us -> getUsersFromStorage ls = us ++ [defaultAdmin]) /\
     ("admin" ∈ usernames us -> getUsersFromStorage ls = us)) /\
  (USERS_KEY ls = Some Garbled -> getUsersFromStorage ls = []) /\
  (UserAccount.username defaultAdmin = "admin" /\ UserAccount.role defaultAdmin = admin) /\
  (forall us,
     getUsersFromStorage (saveUsersToStorage (getUsersFromStorage (saveUsersToStorage us ls)) ls)
     = getUsersFromStorage (saveUsersToStorage us ls)) /\
  (forall w, storage w = ls -> storage (handleLogin w) = ls).
Proof.
  split; [apply getUsersFromStorage_absent|].
  split.
  { intros us Hls. destruct (getUsersFromStorage_stored ls us Hls) as [[H ->] | [H ->]];
      split; intros H'; done. }
  split; [apply getUsersFromStorage_garbled|].
  split; [done|]. split.
  - intros us.
    destruct (getUsersFromStorage_stored (saveUsersToStorage us ls) us eq_refl)
      as [[H ->] | [H ->]].
    + destruct (getUsersFromStorage_stored (saveUsersToStorage us ls) us eq_refl)
        as [[_ E] | [H' _]]; [exact E | contradiction].
    + destruct (getUsersFromStorage_stored
                  (saveUsersToStorage (us ++ [defaultAdmin]) ls) _ eq_refl)
        as [[_ E] | [H' _]]; [exact E|].
      exfalso. apply H'. rewrite usernames_app. apply elem_of_app. right.
      apply elem_of_cons. by left.
  - intros w <-. unfold handleLogin.
    destruct (find _ _) as [u|]; [|reflexivity].
    by destruct (bool_decide _).
Qed.

Lemma getUsersFromStorage_seed_witness :
  getUsersFromStorage (mkStorage None None) = [defaultAdmin] /\
  getUsersFromStorage sampleStorage = [defaultAdmin; raviAccount] /\
  getUsersFromStorage (mkStorage None (Some (JSON_stringify [raviAccount])))
    = [raviAccount; defaultAdmin] /\
  getUsersFromStorage (mkStorage None (Some Garbled)) = [] /\
  storage (handleLogin sampleWorld) = sampleStorage.
Proof.
  split; [|split; [|split; [|split]]].
  - exact (proj1 (getUsersFromStorage_seed (mkStorage None None)) (or_introl eq_refl)).
  - refine (proj2 (proj1 (proj2 (getUsersFromStorage_seed sampleStorage)) _ eq_refl) _).
    apply elem_of_cons. by left.
  - refine (proj1 (proj1 (proj2 (getUsersFromStorage_seed
              (mkStorage None (Some (JSON_stringify [raviAccount]))))) _ eq_refl) _).
    intros [H|H]%elem_of_cons; [discriminate | by apply elem_of_nil in H].
  - exact (proj1 (proj2 (proj2 (getUsersFromStorage_seed (mkStorage None (Some Garbled)))))
             eq_refl).
  - exact (proj2 (proj2 (proj2 (proj2 (proj2 (getUsersFromStorage_seed sampleStorage)))))
             sampleWorld eq_refl).
Defined.

(** Three stored contents on which loading does not do what a seed keyed on
    the role and persisted on load would do: a stored citizen called
    [admin] keeps the seed out, so the loaded directory has no official;
    text that cannot be parsed loads as the empty directory; and with the
    key absent the seed is in the loaded directory while nothing has been
    written to storage. *)
Lemma getUsersFromStorage_no_official :
  let mallory := UserAccount.mk "admin" "letmein" "Mallory" user in
  let ls := mkStorage None (Some (JSON_stringify [mallory])) in
  (getUsersFromStorage ls = [mallory] /\
   forall u, u ∈ getUsersFromStorage ls -> UserAccount.role u <> admin) /\
  getUsersFromStorage (mkStorage None (Some Garbled)) = [] /\
  (getUsersFromStorage (storage initialWorld) = [defaultAdmin] /\
   USERS_KEY (storage (handleLogin initialWorld)) = None).
Proof.
  repeat split.
  intros u [->|H]%elem_of_cons; [discriminate | by apply elem_of_nil in H].
Qed.

(** ** Registration and the reachable directories *)

Section Registration.

Lemma handleRegister_taken w :
  userVal (app w) ∈ usernames (directory w) ->
  handleRegister w = alert "Username already exists!" w.
Proof.
  intros H. unfold handleRegister, directory in *.
  pose proof (find_username (getUsersFromStorage (storage w)) (userVal (app w))) as Hf.
  destruct (find _ _); [reflexivity | contradiction].
Qed.

Lemma handleRegister_fresh w :
  userVal (app w) ∉ usernames (directory w) ->
  let newUser := UserAccount.mk (userVal (app w)) (passVal (app w))
                   (JS.or_else (nameVal (app w)) (userVal (app w))) user in
  handleRegister w =
  w |> writing (saveUsersToStorage (directory w ++ [newUser]))
    |> alert "Registration successful! Please login."
    |> setAuthMode login
    |> setPassVal "".
Proof.
  intros H. unfold handleRegister, directory in *.
  pose proof (find_username (getUsersFromStorage (storage w)) (userVal (app w))) as Hf.
  destruct (find _ _); [|reflexivity]. by destruct Hf as (_ & _ & ?).
Qed.

(** Only a registration writes the users key. *)
Lemma handle_USERS_KEY e w :
  e <> SubmitRegister -> USERS_KEY (storage (handle e w)) = USERS_KEY (storage w).
Proof.
  intros He. destruct e; try contradiction; try reflexivity; simpl.
  - unfold handleLogin. destruct (find _ _); [|reflexivity]. by destruct (bool_decide _).
  - unfold submitComplaint.
    destruct (currentUser (app w)); [|reflexivity].
    destruct (negb _); [reflexivity|].
    destruct reply as [|resp]; [reflexivity|]. simpl.
    destruct (JSON_parse (text_or_empty_object resp)) as [[| |]|]; reflexivity.
  - unfold addComment. by destruct (negb _).
Qed.

Lemma handle_directory e w :
  e <> SubmitRegister -> directory (handle e w) = directory w.
Proof. intros He. unfold directory, getUsersFromStorage. by rewrite handle_USERS_KEY. Qed.

Lemma NoDup_snoc_fresh (l : list string) x : x ∉ l -> NoDup l -> NoDup (l ++ [x]).
Proof.
  intros Hx Hl. apply NoDup_app. split; [exact Hl|]. split; [|apply NoDup_singleton].
  intros y Hy [->|H]%elem_of_cons; [contradiction | by apply elem_of_nil in H].
Qed.

Lemma handleRegister_NoDup w :
  NoDup (usernames (directory w)) -> NoDup (usernames (directory (handleRegister w))).
Proof.
  intros Hnd. destruct (decide (userVal (app w) ∈ usernames (directory w))) as [Hin|Hout].
  - by rewrite handleRegister_taken.
  - rewrite (handleRegister_fresh w Hout). cbv zeta. unfold directory at 1. simpl.
    eapply getUsersFromStorage_NoDup; [reflexivity|].
    rewrite usernames_app. simpl. by apply NoDup_snoc_fresh.
Qed.

Lemma handle_NoDup e w :
  NoDup (usernames (directory w)) -> NoDup (usernames (directory (handle e w))).
Proof.
  intros Hnd.
  destruct e; try (rewrite handle_directory by discriminate; exact Hnd).
  by apply handleRegister_NoDup.
Qed.

Lemma run_NoDup es w :
  NoDup (usernames (directory w)) -> NoDup (usernames (directory (run es w))).
Proof.
  revert w. induction es as [|e es IH]; intros w Hnd; simpl; [exact Hnd|].
  by apply IH, handle_NoDup.
Qed.

Lemma reachable_NoDup w : reachable w -> NoDup (usernames (directory w)).
Proof.
  induction 1 as [|e w _ IH].
  - apply NoDup_singleton.
  - by apply handle_NoDup.
Qed.

(** The application never leaves unparseable text under the users key. *)
Lemma reachable_not_garbled w : reachable w -> USERS_KEY (storage w) <> Some Garbled.
Proof.
  induction 1 as [|e w _ IH]; [discriminate|].
  destruct e; try (rewrite handle_USERS_KEY by discriminate; exact IH).
  simpl. destruct (decide (userVal (app w) ∈ usernames (directory w))) as [Hin|Hout].
  - by rewrite handleRegister_taken.
  - rewrite (handleRegister_fresh w Hout). discriminate.
Qed.

Lemma admin_in_directory ls :
  USERS_KEY ls <> Some Garbled -> "admin" ∈ usernames (getUsersFromStorage ls).
Proof.
  intros Hg. destruct (USERS_KEY ls) as [[| |us]|] eqn:E.
  - rewrite getUsersFromStorage_absent by auto. apply elem_of_cons. by left.
  - contradiction.
  - destruct (getUsersFromStorage_stored ls us E) as [[H ->] | [H ->]]; [exact H|].
    rewrite usernames_app. apply elem_of_app. right. apply elem_of_cons. by left.
  - rewrite getUsersFromStorage_absent by auto. apply elem_of_cons. by left.
Qed.

End Registration.

(** C4.  [handleRegister] fails with the duplicate-identifier message, and
    changes nothing else, exactly when the identifier typed into the form is
    already in the directory; otherwise it appends one record with that
    identifier and role citizen and writes the directory under the users key.
    Consequently no directory the application can reach, and no directory
    obtained by any sequence of events from a directory without repeated
    identifiers, has two records with the same identifier. *)
Theorem handleRegister_unique_identifiers :
  (forall w,
     let a := app w in
     let w' := handleRegister w in
     (userVal a ∈ usernames (directory w) ->
        w' = alert "Username already exists!" w) /\
     (userVal a ∉ usernames (directory w) ->
        exists newUser,
          USERS_KEY (storage w') = Some (JSON_stringify (directory w ++ [newUser])) /\
          UserAccount.username newUser = userVal a /\
          UserAccount.password newUser = passVal a /\
          UserAccount.role newUser = user /\
          DB_KEY (storage w') = DB_KEY (storage w) /\
          alerts w' = alerts w ++ ["Registration successful! Please login."])) /\
  (forall w, reachable w -> NoDup (usernames (directory w))) /\
  (forall w es,
     NoDup (usernames (directory w)) -> NoDup (usernames (directory (run es w)))).
Proof.
  split; [|split; [exact reachable_NoDup | intros w es; apply run_NoDup]].
  intros w a w'. subst a w'. split.
  - apply handleRegister_taken.
  - intros Hout. rewrite (handleRegister_fresh w Hout). cbv zeta.
    eexists. split; [reflexivity|]. repeat split.
Qed.

Lemma handleRegister_unique_identifiers_witness :
  handleRegister sampleWorld = alert "Username already exists!" sampleWorld /\
  (exists newUser,
     USERS_KEY (storage (handleRegister (setUserVal "asha" sampleWorld)))
       = Some (JSON_stringify ([defaultAdmin; raviAccount] ++ [newUser])) /\
     UserAccount.username newUser = "asha" /\
     UserAccount.role newUser = user) /\
  NoDup (usernames (directory initialWorld)) /\
  NoDup (usernames (directory
    (run [ChangeUserVal "asha"; SubmitRegister; SubmitRegister] sampleWorld))).
Proof.
  split; [|split; [|split]].
  - refine (proj1 (proj1 handleRegister_unique_identifiers sampleWorld) _).
    apply elem_of_cons. right. apply elem_of_cons. by left.
  - assert (Hout : "asha" ∉ usernames (directory (setUserVal "asha" sampleWorld))).
    { intros [H|[H|H%elem_of_nil]%elem_of_cons]%elem_of_cons;
        [discriminate | discriminate | exact H]. }
    destruct (proj2 (proj1 handleRegister_unique_identifiers (setUserVal "asha" sampleWorld))
                Hout) as (newUser & H1 & H2 & _ & H3 & _).
    exists newUser. split; [exact H1 | split; [exact H2 | exact H3]].
  - exact (proj1 (proj2 handleRegister_unique_identifiers) initialWorld reachable_init).
  - refine (proj2 (proj2 handleRegister_unique_identifiers) sampleWorld _ _).
    apply NoDup_cons. split.
    + intros [H|H%elem_of_nil]%elem_of_cons; [discriminate | exact H].
    + apply NoDup_singleton.
Defined.

(** C10.  The seed is keyed on the identifier [admin], not on the role:
    for every stored user collection, loading appends the seed account if and
    only if no stored record has identifier [admin], whatever the roles of
    the records are.  There is a stored collection with a citizen called
    [admin] whose loaded directory has no official.  And a registration with
    identifier [admin] fails for every stored collection, for an absent or
    empty key, and hence in every world the application can reach. *)
Theorem seed_keyed_on_identifier :
  (forall ls us, USERS_KEY ls = Some (JSON_stringify us) ->
     (getUsersFromStorage ls = us ++ [defaultAdmin] <-> "admin" ∉ usernames us) /\
     (getUsersFromStorage ls = us <-> "admin" ∈ usernames us)) /\
  (exists us,
     (exists u, u ∈ us /\ UserAccount.username u = "admin" /\ UserAccount.role u = user) /\
     forall ls, USERS_KEY ls = Some (JSON_stringify us) ->
       forall u, u ∈ getUsersFromStorage ls -> UserAccount.role u <> admin) /\
  (forall w, USERS_KEY (storage w) <> Some Garbled -> userVal (app w) = "admin" ->
     handleRegister w = alert "Username already exists!" w) /\
  (forall w, reachable w -> USERS_KEY (storage w) <> Some Garbled).
Proof.
  split; [|split; [|split]].
  - intros ls us Hls.
    assert (Hne : us ++ [defaultAdmin] <> us).
    { intros E. apply (f_equal length) in E. rewrite length_app in E. simpl in E. lia. }
    destruct (getUsersFromStorage_stored ls us Hls) as [[H ->] | [H ->]]; split; split;
      intros H'; try done.
  - exists [UserAccount.mk "admin" "letmein" "Mallory" user]. split.
    + eexists. split; [apply elem_of_cons; by left | by split].
    + intros ls Hls u. unfold getUsersFromStorage. rewrite Hls. simpl.
      intros [->|H%elem_of_nil]%elem_of_cons; [discriminate | done].
  - intros w Hg Hu. apply handleRegister_taken. rewrite Hu.
    by apply admin_in_directory.
  - exact reachable_not_garbled.
Qed.

Lemma seed_keyed_on_identifier_witness :
  getUsersFromStorage (mkStorage None (Some (JSON_stringify [raviAccount])))
    = [raviAccount] ++ [defaultAdmin] /\
  handleRegister (setUserVal "admin" sampleWorld)
    = alert "Username already exists!" (setUserVal "admin" sampleWorld) /\
  USERS_KEY (storage initialWorld) <> Some Garbled.
Proof.
  split; [|split].
  - refine (proj2 (proj1 (proj1 seed_keyed_on_identifier
              (mkStorage None (Some (JSON_stringify [raviAccount]))) [raviAccount] eq_refl)) _).
    intros [H|H%elem_of_nil]%elem_of_cons; [discriminate | exact H].
  - refine (proj1 (proj2 (proj2 seed_keyed_on_identifier))
              (setUserVal "admin" sampleWorld) _ eq_refl).
    discriminate.
  - exact (proj2 (proj2 (proj2 seed_keyed_on_identifier)) initialWorld reachable_init).
Defined.

(** ** Save and load *)

(** C7 (amended).  For the complaint store, a save followed by a load gives
    back the saved collection, record for record.  For the user store it
    does so exactly for the collections that have a record with identifier
    [admin]; for any other collection the load gives the saved collection
    followed by the seed account.  Text that cannot be parsed loads as the
    empty collection in both stores, and so does an absent complaints key.
    A save writes its own key only. *)
Theorem save_load_roundtrip (ls : localStorage) :
  (forall cs, getComplaintsFromStorage (saveComplaintsToStorage cs ls) = cs) /\
  (forall us, "admin" ∈ usernames us ->
     getUsersFromStorage (saveUsersToStorage us ls) = us) /\
  (forall us, "admin" ∉ usernames us ->
     getUsersFromStorage (saveUsersToStorage us ls) = us ++ [defaultAdmin]) /\
  (DB_KEY ls = Some Garbled \/ DB_KEY ls = None \/ DB_KEY ls = Some Blank ->
     getComplaintsFromStorage ls = []) /\
  (USERS_KEY ls = Some Garbled -> getUsersFromStorage ls = []) /\
  (forall cs, USERS_KEY (saveComplaintsToStorage cs ls) = USERS_KEY ls) /\
  (forall us, DB_KEY (saveUsersToStorage us ls) = DB_KEY ls).
Proof.
  split; [reflexivity|]. split; [|split].
  - intros us Hin.
    destruct (getUsersFromStorage_stored (saveUsersToStorage us ls) us eq_refl)
      as [[_ E] | [H _]]; [exact E | contradiction].
  - intros us Hout.
    destruct (getUsersFromStorage_stored (saveUsersToStorage us ls) us eq_refl)
      as [[H _] | [_ E]]; [contradiction | exact E].
  - split; [|split; [apply getUsersFromStorage_garbled | split; reflexivity]].
    unfold getComplaintsFromStorage. by intros [-> | [-> | ->]].
Qed.

Lemma save_load_roundtrip_witness :
  getUsersFromStorage (saveUsersToStorage [defaultAdmin; raviAccount] sampleStorage)
    = [defaultAdmin; raviAccount] /\
  getUsersFromStorage (saveUsersToStorage [raviAccount] sampleStorage)
    = [raviAccount] ++ [defaultAdmin] /\
  getComplaintsFromStorage (mkStorage (Some Garbled) None) = [] /\
  getUsersFromStorage (mkStorage None (Some Garbled)) = [].
Proof.
  split; [|split; [|split]].
  - refine (proj1 (proj2 (save_load_roundtrip sampleStorage)) _ _).
    apply elem_of_cons. by left.
  - refine (proj1 (proj2 (proj2 (save_load_roundtrip sampleStorage))) _ _).
    intros [H|H%elem_of_nil]%elem_of_cons; [discriminate | exact H].
  - exact (proj1 (proj2 (proj2 (proj2 (save_load_roundtrip (mkStorage (Some Garbled) None)))))
             (or_introl eq_refl)).
  - exact (proj1 (proj2 (proj2 (proj2 (proj2
             (save_load_roundtrip (mkStorage None (Some Garbled))))))) eq_refl).
Defined.

(** Saving the empty user collection and loading it does not give the empty
    collection back; neither does saving a collection of citizens. *)
Lemma save_load_users_not_equal :
  getUsersFromStorage (saveUsersToStorage [] (mkStorage None None)) = [defaultAdmin] /\
  getUsersFromStorage (saveUsersToStorage [] (mkStorage None None)) <> [] /\
  getUsersFromStorage (saveUsersToStorage [raviAccount] (mkStorage None None))
    <> [raviAccount].
Proof. repeat split; discriminate. Qed.

(** ** Login *)



(** * Further properties of the handlers *)

(** ** Remarks and status updates *)

Section Remarks.

Lemma with_status_with_adminComments s a c :
  Complaint.with_status s (Complaint.with_adminComments a c)
  = Complaint.with_adminComments a (Complaint.with_status s c).
Proof. reflexivity. Qed.

Lemma map_commute {A : Type} (f g : A -> A) (l : list A) :
  (forall x, f (g x) = g (f x)) -> map f (map g l) = map g (map f l).
Proof. intros H. rewrite !map_map. apply map_ext. exact H. Qed.

Lemma blank_spec s : negb (JS.truthy (JS.trim s)) = true <-> JS.trim s = "".
Proof. destruct (JS.trim s); simpl; split; congruence. Qed.

Lemma addComment_blank id comment now w :
  JS.trim comment = "" -> addComment id comment now w = w.
Proof. intros H. unfold addComment. by rewrite H. Qed.

Lemma addComment_written id comment now w :
  JS.trim comment <> "" ->
  addComment id comment now w =
  let updated :=
    map (fun c => if Complaint.id c =? id
                  then Complaint.with_adminComments
                         (Complaint.adminComments c ++ [AdminComment.mk comment now]) c
                  else c) (complaints (app w)) in
  w |> setComplaints updated |> writing (saveComplaintsToStorage updated).
Proof.
  intros H. unfold addComment. destruct (JS.trim comment); [done | reflexivity].
Qed.

End Remarks.

(** X1.  A remark that is blank changes nothing.  Any other remark is
    appended, as typed and with the time of the call, to the remarks of every
    complaint that has the id; the other fields of those complaints, the
    complaints with another id, the length and the order of the ledger are
    unchanged, and the new ledger is written under the complaints key. *)
Theorem addComment_frame (id comment : string) (now : Z) (w : World) :
  let old := complaints (app w) in
  let w' := addComment id comment now w in
  let new := complaints (app w') in
  (JS.trim comment = "" -> w' = w) /\
  (JS.trim comment <> "" ->
     length new = length old /\
     (forall i c, old !! i = Some c ->
        (Complaint.id c <> id -> new !! i = Some c) /\
        (Complaint.id c = id ->
           new !! i = Some (Complaint.with_adminComments
                              (Complaint.adminComments c ++ [AdminComment.mk comment now]) c))) /\
     DB_KEY (storage w') = Some (JSON_stringify new) /\
     USERS_KEY (storage w') = USERS_KEY (storage w) /\
     alerts w' = alerts w).
Proof.
  intros old w' new. subst old w' new. split; [apply addComment_blank|].
  intros H. rewrite (addComment_written _ _ _ _ H). cbv zeta. simpl.
  split; [apply length_map|]. split; [|repeat split].
  intros i c Hi. rewrite lookup_map, Hi. simpl. split.
  - intros Hne. by destruct (String.eqb_spec (Complaint.id c) id).
  - intros E. by rewrite (proj2 (String.eqb_eq _ _) E).
Qed.

Lemma addComment_frame_witness :
  addComment "CIT-0042" "   " 1700000700000 sampleWorld = sampleWorld /\
  complaints (app (addComment "CIT-0107" " Fixed today " 1700000700000 sampleWorld)) !! 0%nat
    = Some (Complaint.with_adminComments
              [AdminComment.mk "Crew assigned" 1700000360000;
               AdminComment.mk " Fixed today " 1700000700000] streetlight) /\
  complaints (app (addComment "CIT-0107" " Fixed today " 1700000700000 sampleWorld)) !! 1%nat
    = Some pothole.
Proof.
  assert (Hc : JS.trim " Fixed today " <> "") by (vm_compute; discriminate).
  split; [|split].
  - refine (proj1 (addComment_frame "CIT-0042" "   " 1700000700000 sampleWorld) _).
    reflexivity.
  - exact (proj2 (proj1 (proj2 (proj2 (addComment_frame "CIT-0107" " Fixed today "
             1700000700000 sampleWorld) Hc)) 0%nat streetlight eq_refl) eq_refl).
  - refine (proj1 (proj1 (proj2 (proj2 (addComment_frame "CIT-0107" " Fixed today "
             1700000700000 sampleWorld) Hc)) 1%nat pothole eq_refl) _).
    discriminate.
Defined.

(** X2.  A status update and a remark commute: in whichever order the two
    handlers run, on the same or on different ids, the resulting world is the
    same. *)
Theorem updateStatus_addComment_commute id s id' comment now w :
  updateStatus id s (addComment id' comment now w)
  = addComment id' comment now (updateStatus id s w).
Proof.
  destruct (decide (JS.trim comment = "")) as [Hb|Hb].
  - by rewrite !addComment_blank.
  - rewrite !(addComment_written _ _ _ _ Hb). cbv zeta.
    unfold updateStatus, setComplaints, writing, with_app, saveComplaintsToStorage. simpl.
    rewrite map_commute; [reflexivity|]. intros c.
    destruct (Complaint.id c =? id) eqn:E1, (Complaint.id c =? id') eqn:E2; simpl;
      rewrite ?E1, ?E2; reflexivity.
Qed.

(** X3.  Of two status updates on the same id the second one wins, and
    status updates on different ids commute. *)
Theorem updateStatus_compose id id' s1 s2 w :
  updateStatus id s2 (updateStatus id s1 w) = updateStatus id s2 w /\
  (id <> id' ->
   updateStatus id' s2 (updateStatus id s1 w) = updateStatus id s1 (updateStatus id' s2 w)).
Proof.
  unfold updateStatus, setComplaints, writing, with_app, saveComplaintsToStorage. simpl.
  split.
  - rewrite map_map.
    rewrite (map_ext _ (fun c => if Complaint.id c =? id then Complaint.with_status s2 c else c));
      [reflexivity|].
    intros c. destruct (Complaint.id c =? id) eqn:E; simpl; by rewrite E.
  - intros Hne. rewrite map_commute; [reflexivity|]. intros c.
    destruct (Complaint.id c =? id) eqn:E1, (Complaint.id c =? id') eqn:E2; simpl;
      rewrite ?E1, ?E2; try reflexivity.
    apply String.eqb_eq in E1, E2. congruence.
Qed.

Lemma updateStatus_compose_witness :
  updateStatus "CIT-0107" Resolved (updateStatus "CIT-0042" InProgress sampleWorld)
  = updateStatus "CIT-0042" InProgress (updateStatus "CIT-0107" Resolved sampleWorld).
Proof.
  refine (proj2 (updateStatus_compose "CIT-0042" "CIT-0107" InProgress Resolved sampleWorld) _).
  discriminate.
Defined.

(** ** The guard of a submission *)

Section Blank.

Lemma trimStart_empty s : JS.trimStart s = "" <-> AllWhitespace s.
Proof.
  unfold AllWhitespace. induction s as [|c s IH]; simpl.
  - split; [constructor | reflexivity].
  - destruct (JS.is_whitespace c) eqn:E.
    + rewrite IH. split; [by constructor | by inversion 1].
    + split; [discriminate | inversion 1; congruence].
Qed.

Lemma trimEnd_empty s : JS.trimEnd s = "" <-> AllWhitespace s.
Proof.
  unfold AllWhitespace. induction s as [|c s IH]; simpl.
  - split; [constructor | reflexivity].
  - destruct (JS.trimEnd s) eqn:Es.
    + destruct (JS.is_whitespace c) eqn:E.
      * split; [intros _; constructor; [exact E | by apply IH] | reflexivity].
      * split; [discriminate | inversion 1; congruence].
    + split; [discriminate|]. inversion 1 as [|? ? _ Hs]. apply IH in Hs. discriminate.
Qed.

(** What [trimStart] leaves does not start with white space. *)
Lemma trimStart_head s c t : JS.trimStart s = String c t -> JS.is_whitespace c = false.
Proof.
  induction s as [|a s IH]; simpl; [discriminate|].
  destruct (JS.is_whitespace a) eqn:E; [exact IH|]. by intros [= <- _].
Qed.

Lemma trim_empty s : JS.trim s = "" <-> AllWhitespace s.
Proof.
  unfold JS.trim. rewrite trimEnd_empty. split.
  - intros H. apply trimStart_empty. destruct (JS.trimStart s) as [|c t] eqn:E; [done|].
    apply trimStart_head in E. inversion H. congruence.
  - intros H. apply trimStart_empty in H. rewrite H. constructor.
Qed.

End Blank.

(** X4.  A submission with nobody signed in, or with a text made of white
    space only (the empty text included), does nothing at all: whatever the
    model would reply, the world is unchanged. *)
Theorem submitComplaint_blank_noop rnd now reply w :
  currentUser (app w) = None \/ AllWhitespace (text (app w)) ->
  submitComplaint rnd now reply w = w.
Proof.
  intros H. apply submitComplaint_guard. intros cu [Hcu Ht]. destruct H as [H|H].
  - congruence.
  - by apply trim_empty in H.
Qed.

Lemma submitComplaint_blank_noop_witness :
  submitComplaint 42 1700000500000 Rejected (setText "  " sampleWorld) = setText "  " sampleWorld /\
  submitComplaint 42 1700000500000 (Fulfilled None) (handleLogout sampleWorld)
    = handleLogout sampleWorld.
Proof.
  split.
  - refine (submitComplaint_blank_noop 42 1700000500000 Rejected (setText "  " sampleWorld) _).
    right. repeat constructor.
  - refine (submitComplaint_blank_noop 42 1700000500000 (Fulfilled None)
              (handleLogout sampleWorld) _).
    left. reflexivity.
Defined.

(** ** What each handler can do to a world *)

Section Cases.

Lemma submitComplaint_cases rnd now reply w :
  submitComplaint rnd now reply w = w \/
  (exists cu, submittable w cu /\ classification reply = None /\
     submitComplaint rnd now reply w =
     (w |> setLoading true |> alert "AI Processing Error." |> setLoading false)) \/
  (exists cu translated urgency,
     submittable w cu /\ classification reply = Some (translated, urgency) /\
     submitComplaint rnd now reply w =
     let a := app w in
     let newComplaint :=
       Complaint.mk (complaintId rnd) (UserSession.id cu) (UserSession.name cu) (text a)
         (match translated with Some t => JS.or_else t (text a) | None => text a end)
         (selectedCat a) (JS.or_default urgency Medium) Pending (img a) [] now in
     let updated := newComplaint :: complaints a in
     mkWorld
       (mkApp (currentUser a) (authMode a) (view a) updated false (searchQuery a)
          (statusFilter a) (urgencyFilter a) (categoryFilter a) "" (selectedCat a) None
          (loginRole a) (userVal a) (passVal a) (nameVal a))
       (saveComplaintsToStorage updated (storage w))
       (alerts w)).
Proof.
  destruct (currentUser (app w)) as [cu|] eqn:Ecu.
  - destruct (decide (JS.trim (text (app w)) = "")) as [Et|Et].
    + left. apply submitComplaint_guard. intros cu' [_ H]. contradiction.
    + right. destruct (classification reply) as [[translated urgency]|] eqn:Ec.
      * right. exists cu, translated, urgency. split; [by split|]. split; [done|].
        by apply submitComplaint_returned.
      * left. exists cu. split; [by split|]. split; [done|].
        by apply (submitComplaint_thrown _ _ _ _ cu).
  - left. apply submitComplaint_guard. intros cu' [H _]. congruence.
Qed.

Lemma handleLogin_cases w :
  (exists msg, handleLogin w = alert msg w) \/
  (exists u, u ∈ directory w /\ matchesCredentials (app w) u /\
     UserAccount.role u = loginRole (app w) /\
     handleLogin w =
     (w |> setCurrentUser (Some (UserSession.mk (UserAccount.username u)
                                   (UserAccount.role u) (UserAccount.name u)))
        |> setView dashboard)).
Proof.
  unfold handleLogin, directory.
  pose proof (find_first (fun u => (UserAccount.username u =? userVal (app w)) &&
                                   (UserAccount.password u =? passVal (app w)))
                (getUsersFromStorage (storage w))) as H.
  destruct (find _ _) as [u|]; [|left; eauto].
  destruct (decide (UserAccount.role u = loginRole (app w))) as [Hr|Hr].
  - right. exists u. destruct H as (l1 & l2 & E & Hu & _).
    apply andb_true_iff in Hu as [Hu1%String.eqb_eq Hu2%String.eqb_eq].
    split; [rewrite E; apply elem_of_app; right; apply elem_of_cons; auto|].
    split; [by split|]. split; [exact Hr|].
    by rewrite bool_decide_eq_false_2 by (intros H'; by apply H').
  - left. rewrite bool_decide_eq_true_2 by exact Hr. eauto.
Qed.

(** In a world whose users key is not unparseable, a registration with a
    fresh identifier extends the directory by the new citizen. *)
Lemma handleRegister_directory w :
  USERS_KEY (storage w) <> Some Garbled ->
  userVal (app w) ∉ usernames (directory w) ->
  directory (handleRegister w) =
  directory w ++ [UserAccount.mk (userVal (app w)) (passVal (app w))
                    (JS.or_else (nameVal (app w)) (userVal (app w))) user].
Proof.
  intros Hg Hout. rewrite (handleRegister_fresh w Hout). cbv zeta.
  unfold directory at 1. simpl.
  set (d := directory w ++ _).
  destruct (getUsersFromStorage_stored
              (saveUsersToStorage d (storage w)) d eq_refl) as [[_ E] | [H _]]; [exact E|].
  exfalso. apply H. unfold d. rewrite usernames_app. apply elem_of_app. left.
  by apply admin_in_directory.
Qed.

Lemma handle_directory_grows e w :
  USERS_KEY (storage w) <> Some Garbled ->
  directory (handle e w) = directory w \/
  exists u, UserAccount.role u = user /\ directory (handle e w) = directory w ++ [u].
Proof.
  intros Hg. destruct e; try (left; apply handle_directory; discriminate).
  simpl. destruct (decide (userVal (app w) ∈ usernames (directory w))) as [Hin|Hout].
  - left. by rewrite handleRegister_taken.
  - right. eexists. split; [|by apply handleRegister_directory]. reflexivity.
Qed.

Lemma handle_not_garbled e w :
  USERS_KEY (storage w) <> Some Garbled -> USERS_KEY (storage (handle e w)) <> Some Garbled.
Proof.
  intros Hg. destruct e; try (rewrite handle_USERS_KEY by discriminate; exact Hg).
  simpl. destruct (decide (userVal (app w) ∈ usernames (directory w))) as [Hin|Hout].
  - by rewrite handleRegister_taken.
  - rewrite (handleRegister_fresh w Hout). discriminate.
Qed.

End Cases.

(** ** Invariants of the reachable worlds *)

Section Invariants.

Lemma handle_in_sync e w :
  getComplaintsFromStorage (storage w) = complaints (app w) ->
  getComplaintsFromStorage (storage (handle e w)) = complaints (app (handle e w)).
Proof.
  intros H. destruct e; try exact H; try reflexivity.
  - (* register *)
    simpl. destruct (decide (userVal (app w) ∈ usernames (directory w))) as [Hin|Hout].
    + by rewrite handleRegister_taken.
    + rewrite (handleRegister_fresh w Hout). exact H.
  - (* login *)
    simpl. destruct (handleLogin_cases w) as [[msg ->] | (u & _ & _ & _ & ->)]; exact H.
  - (* submit *)
    simpl. destruct (submitComplaint_cases rnd now reply w)
      as [-> | [(cu & _ & _ & ->) | (cu & tr & ur & _ & _ & ->)]];
      [exact H | exact H | reflexivity].
  - (* remark *)
    simpl. unfold addComment. destruct (negb _); [exact H | reflexivity].
Qed.

Lemma reachable_in_sync w :
  reachable w -> getComplaintsFromStorage (storage w) = complaints (app w).
Proof. induction 1 as [|e w _ IH]; [reflexivity | by apply handle_in_sync]. Qed.

Lemma session_ok_frame w w' :
  currentUser (app w') = currentUser (app w) ->
  view (app w') = view (app w) ->
  (forall u, u ∈ directory w -> u ∈ directory w') ->
  session_ok w -> session_ok w'.
Proof.
  unfold session_ok. intros -> -> Hd. destruct (currentUser (app w)); [|done].
  intros [Hv (u & Hu & H)]. split; [exact Hv|]. exists u. split; [by apply Hd | exact H].
Qed.

Lemma handle_session_ok e w :
  USERS_KEY (storage w) <> Some Garbled -> session_ok w -> session_ok (handle e w).
Proof.
  intros Hg H.
  assert (Hsame : forall w', currentUser (app w') = currentUser (app w) ->
            view (app w') = view (app w) -> directory w' = directory w -> session_ok w').
  { intros w' H1 H2 H3. apply (session_ok_frame w); [done | done | | done].
    intros u. by rewrite H3. }
  destruct e; try (apply Hsame; reflexivity).
  - (* reload *) reflexivity.
  - (* register *)
    simpl. destruct (decide (userVal (app w) ∈ usernames (directory w))) as [Hin|Hout].
    + rewrite handleRegister_taken by done. by apply Hsame.
    + apply (session_ok_frame w); [..|done].
      * by rewrite (handleRegister_fresh w Hout).
      * by rewrite (handleRegister_fresh w Hout).
      * intros u Hu. rewrite handleRegister_directory by done. apply elem_of_app. by left.
  - (* login *)
    simpl. destruct (handleLogin_cases w) as [[msg ->] | (u & Hu & _ & _ & ->)].
    + by apply Hsame.
    + unfold session_ok. simpl. split; [reflexivity|]. exists u. by repeat split.
  - (* logout *) reflexivity.
  - (* submit *)
    simpl. destruct (submitComplaint_cases rnd now reply w)
      as [-> | [(cu & _ & _ & ->) | (cu & tr & ur & _ & _ & ->)]];
      [done | by apply Hsame | by apply Hsame].
  - (* remark *)
    simpl. unfold addComment. destruct (negb _); [done | by apply Hsame].
Qed.

Lemma reachable_session_ok w : reachable w -> session_ok w.
Proof.
  induction 1 as [|e w Hw IH]; [reflexivity|].
  apply handle_session_ok; [by apply reachable_not_garbled | exact IH].
Qed.

Lemma handle_officials_ok e w :
  USERS_KEY (storage w) <> Some Garbled -> officials_ok w -> officials_ok (handle e w).
Proof.
  intros Hg [H1 H2]. unfold officials_ok.
  destruct (handle_directory_grows e w Hg) as [-> | (u & Hu & ->)]; [by split|].
  split; [apply elem_of_app; by left|].
  intros v [Hv | Hv%list_elem_of_singleton]%elem_of_app Hr; [by apply H2|].
  subst v. congruence.
Qed.

Lemma reachable_officials_ok w : reachable w -> officials_ok w.
Proof.
  induction 1 as [|e w Hw IH].
  - split; [apply elem_of_cons; by left|].
    by intros u [->|H%elem_of_nil]%elem_of_cons.
  - apply handle_officials_ok; [by apply reachable_not_garbled | exact IH].
Qed.

Lemma reachable_filters w :
  reachable w -> urgencyFilter (app w) = All /\ categoryFilter (app w) = "All".
Proof.
  induction 1 as [|e w _ IH]; [by split|].
  destruct e; try exact IH; try (by split).
  - simpl. destruct (decide (userVal (app w) ∈ usernames (directory w))) as [Hin|Hout].
    + by rewrite handleRegister_taken.
    + by rewrite (handleRegister_fresh w Hout).
  - simpl. by destruct (handleLogin_cases w) as [[msg ->] | (u & _ & _ & _ & ->)].
  - simpl. by destruct (submitComplaint_cases rnd now reply w)
      as [-> | [(cu & _ & _ & ->) | (cu & tr & ur & _ & _ & ->)]].
  - simpl. unfold addComment. by destruct (negb _).
Qed.

End Invariants.

(** The sample run and where it ends. *)
Lemma officeWorld_reachable : reachable officeWorld.
Proof.
  unfold officeWorld, officeEvents.
  repeat (first [apply reachable_init | eapply (reachable_step _ _)]).
Qed.

Lemma officeWorld_ledger : complaints (app officeWorld) = [waterComplaint; roadComplaint].
Proof. vm_compute. reflexivity. Qed.

Lemma officeWorld_filters :
  searchQuery (app officeWorld) = "ROAD" /\ statusFilter (app officeWorld) = Only Pending.
Proof. vm_compute. by split. Qed.

Lemma officeWorld_ascii : asciiSearch (app officeWorld).
Proof.
  split; [by rewrite (proj1 officeWorld_filters)|]. rewrite officeWorld_ledger.
  intros c [->|[->|H%elem_of_nil]%elem_of_cons]%elem_of_cons; [by split | by split | done].
Qed.



(** X6.  In every reachable world the view and the session go together:
    without a session the authentication screen is shown, and with a session
    the dashboard is shown and the session carries the identifier, the role
    and the display name of an account of the directory. *)
Theorem reachable_session (w : World) :
  reachable w ->
  match currentUser (app w) with
  | None => view (app w) = auth
  | Some s =>
      view (app w) = dashboard /\
      exists u, u ∈ directory w /\
        UserAccount.username u = UserSession.id s /\
        UserAccount.role u = UserSession.role s /\
        UserAccount.name u = UserSession.name s
  end.
Proof. exact (reachable_session_ok w). Qed.

Lemma reachable_session_witness :
  view (app (run [ChangeUserVal "admin"; ChangePassVal "admin123"; ClickRole admin;
                  SubmitLogin] initialWorld)) = dashboard.
Proof.
  refine (proj1 (reachable_session
    (run [ChangeUserVal "admin"; ChangePassVal "admin123"; ClickRole admin; SubmitLogin]
         initialWorld) _)).
  repeat (first [apply reachable_init | eapply (reachable_step _ _)]).
Defined.

(** ** Officials *)

Section Officials.

Lemma NoDup_usernames_inj (l : list UserAccount.t) u v :
  NoDup (usernames l) -> u ∈ l -> v ∈ l ->
  UserAccount.username u = UserAccount.username v -> u = v.
Proof.
  intros Hl Hu Hv E. induction l as [|x l IH]; [by apply elem_of_nil in Hu|].
  simpl in Hl. apply NoDup_cons in Hl as [Hx Hl].
  assert (Hin : forall y, y ∈ l -> UserAccount.username y ∈ usernames l).
  { intros y Hy. apply list_elem_of_In, in_map. by apply list_elem_of_In. }
  apply elem_of_cons in Hu as [->|Hu]; apply elem_of_cons in Hv as [->|Hv]; auto.
  - exfalso. apply Hx. rewrite E. by apply Hin.
  - exfalso. apply Hx. rewrite <- E. by apply Hin.
Qed.

(** Logging in with given credentials, in terms of the first match. *)
Lemma handleLogin_found w u :
  u ∈ directory w ->
  matchesCredentials (app w) u ->
  (forall v, v ∈ directory w -> matchesCredentials (app w) v -> v = u) ->
  UserAccount.role u = loginRole (app w) ->
  handleLogin w =
  (w |> setCurrentUser (Some (UserSession.mk (UserAccount.username u)
                                (UserAccount.role u) (UserAccount.name u)))
     |> setView dashboard).
Proof.
  intros Hu [Hm1 Hm2] Huniq Hr. unfold handleLogin, directory in *.
  pose proof (find_first (fun u => (UserAccount.username u =? userVal (app w)) &&
                                   (UserAccount.password u =? passVal (app w)))
                (getUsersFromStorage (storage w))) as H.
  destruct (find _ _) as [v|].
  - destruct H as (l1 & l2 & E & Hv & _).
    apply andb_true_iff in Hv as [Hv1%String.eqb_eq Hv2%String.eqb_eq].
    assert (v = u) as ->.
    { apply Huniq; [|by split]. rewrite E. apply elem_of_app. right.
      apply elem_of_cons. by left. }
    by rewrite bool_decide_eq_false_2 by (intros H'; by apply H').
  - specialize (H u Hu). simpl in H.
    rewrite Hm1, Hm2, !String.eqb_refl in H. discriminate.
Qed.

Lemma handleLogin_none w :
  (forall u, u ∈ directory w -> ~ matchesCredentials (app w) u) ->
  handleLogin w = alert "Invalid credentials!" w.
Proof.
  intros Hnone. unfold handleLogin, directory in *.
  pose proof (find_first (fun u => (UserAccount.username u =? userVal (app w)) &&
                                   (UserAccount.password u =? passVal (app w)))
                (getUsersFromStorage (storage w))) as H.
  destruct (find _ _) as [v|]; [|reflexivity].
  destruct H as (l1 & l2 & E & Hv & _).
  apply andb_true_iff in Hv as [Hv1%String.eqb_eq Hv2%String.eqb_eq].
  exfalso. apply (Hnone v); [|by split]. rewrite E. apply elem_of_app. right.
  apply elem_of_cons. by left.
Qed.

End Officials.

(** X7.  In every reachable world the seed account is in the directory and
    is its only official: no sequence of events creates a second official.
    Consequently a session with the official role is the session of the seed
    account. *)
Theorem reachable_single_official (w : World) :
  reachable w ->
  defaultAdmin ∈ directory w /\
  (forall u, u ∈ directory w -> UserAccount.role u = admin -> u = defaultAdmin) /\
  (forall s, currentUser (app w) = Some s -> UserSession.role s = admin ->
     s = UserSession.mk "admin" admin "Chief Administrator").
Proof.
  intros H. destruct (reachable_officials_ok w H) as [H1 H2].
  split; [exact H1|]. split; [exact H2|].
  intros s Hs Hr. pose proof (reachable_session_ok w H) as Hok.
  unfold session_ok in Hok. rewrite Hs in Hok.
  destruct Hok as [_ (u & Hu & E1 & E2 & E3)].
  assert (u = defaultAdmin) as -> by (apply H2; [done | congruence]).
  destruct s as [i r n]. simpl in *. congruence.
Qed.

Lemma reachable_single_official_witness :
  defaultAdmin ∈ directory (run [ChangeUserVal "asha"; SubmitRegister] initialWorld).
Proof.
  refine (proj1 (reachable_single_official
            (run [ChangeUserVal "asha"; SubmitRegister] initialWorld) _)).
  repeat (first [apply reachable_init | eapply (reachable_step _ _)]).
Defined.

(** X8.  In every reachable world the seed credentials work: typing
    [admin] and [admin123] and choosing the official role opens the session
    of the seed account and shows the dashboard. *)
Theorem default_admin_login (w : World) :
  reachable w ->
  let w0 := w |> setUserVal "admin" |> setPassVal "admin123" |> setLoginRole admin in
  handleLogin w0 =
  (w0 |> setCurrentUser (Some (UserSession.mk "admin" admin "Chief Administrator"))
      |> setView dashboard).
Proof.
  intros H w0. destruct (reachable_officials_ok w H) as [H1 _].
  pose proof (reachable_NoDup w H) as Hnd.
  apply (handleLogin_found w0 defaultAdmin).
  - exact H1.
  - by split.
  - intros v Hv [Hv1 _]. by apply (NoDup_usernames_inj (directory w)).
  - reflexivity.
Qed.

Lemma default_admin_login_witness :
  currentUser (app (handleLogin
    (initialWorld |> setUserVal "admin" |> setPassVal "admin123" |> setLoginRole admin)))
  = Some (UserSession.mk "admin" admin "Chief Administrator").
Proof.
  exact (f_equal (fun w => currentUser (app w)) (default_admin_login initialWorld reachable_init)).
Defined.

(** X9.  When the text under the users key cannot be parsed, the directory
    is empty: every login is answered with invalid credentials, the seed
    credentials included, and a registration goes through for any
    identifier, writing a collection that holds the new citizen alone. *)
Theorem garbled_users_key (w : World) :
  USERS_KEY (storage w) = Some Garbled ->
  directory w = [] /\
  handleLogin w = alert "Invalid credentials!" w /\
  USERS_KEY (storage (handleRegister w)) =
    Some (JSON_stringify [UserAccount.mk (userVal (app w)) (passVal (app w))
                            (JS.or_else (nameVal (app w)) (userVal (app w))) user]).
Proof.
  intros Hg.
  assert (Hd : directory w = []) by (by apply getUsersFromStorage_garbled).
  split; [exact Hd|]. split.
  - apply handleLogin_none. rewrite Hd. intros u Hu. by apply elem_of_nil in Hu.
  - rewrite handleRegister_fresh.
    + cbv zeta. simpl. by rewrite Hd.
    + rewrite Hd. simpl. by intros H%elem_of_nil.
Qed.

Lemma garbled_users_key_witness :
  let w := mkWorld (app sampleWorld) (mkStorage None (Some Garbled)) [] in
  handleLogin (w |> setUserVal "admin" |> setPassVal "admin123" |> setLoginRole admin)
  = alert "Invalid credentials!"
      (w |> setUserVal "admin" |> setPassVal "admin123" |> setLoginRole admin).
Proof.
  exact (proj1 (proj2 (garbled_users_key
    (mkWorld (app sampleWorld) (mkStorage None (Some Garbled)) []
       |> setUserVal "admin" |> setPassVal "admin123" |> setLoginRole admin) eq_refl))).
Defined.

Section Takeover.

(** A stored directory of citizens, one of them called [admin]. *)
Lemma citizens_only_step e w us :
  USERS_KEY (storage w) = Some (JSON_stringify us) ->
  "admin" ∈ usernames us ->
  (forall u, u ∈ us -> UserAccount.role u = user) ->
  exists us', USERS_KEY (storage (handle e w)) = Some (JSON_stringify us') /\
              "admin" ∈ usernames us' /\
              (forall u, u ∈ us' -> UserAccount.role u = user).
Proof.
  intros Hk Ha Hr.
  assert (Hd : directory w = us).
  { destruct (getUsersFromStorage_stored _ _ Hk) as [[_ E] | [H _]]; [exact E | contradiction]. }
  destruct e; try (exists us; rewrite handle_USERS_KEY by discriminate; by repeat split).
  simpl. destruct (decide (userVal (app w) ∈ usernames (directory w))) as [Hin|Hout].
  - exists us. by rewrite handleRegister_taken.
  - rewrite (handleRegister_fresh w Hout). cbv zeta. rewrite Hd. eexists.
    split; [reflexivity|]. split.
    + rewrite usernames_app. apply elem_of_app. by left.
    + intros u [Hu | ->%list_elem_of_singleton]%elem_of_app; [by apply Hr | reflexivity].
Qed.

Lemma citizens_only_run es w us :
  USERS_KEY (storage w) = Some (JSON_stringify us) ->
  "admin" ∈ usernames us ->
  (forall u, u ∈ us -> UserAccount.role u = user) ->
  exists us', USERS_KEY (storage (run es w)) = Some (JSON_stringify us') /\
              "admin" ∈ usernames us' /\
              (forall u, u ∈ us' -> UserAccount.role u = user).
Proof.
  revert w us. induction es as [|e es IH]; intros w us Hk Ha Hr; simpl; [eauto|].
  destruct (citizens_only_step e w us Hk Ha Hr) as (us' & Hk' & Ha' & Hr'). eauto.
Qed.

End Takeover.

(** X10.  When the text under the users key cannot be parsed and [admin]
    is registered, the identifier of the seed belongs to a citizen for good:
    whatever events follow, [admin] is the identifier of a citizen, every
    account of the directory is a citizen, and a login with the official
    role is refused. *)
Theorem admin_identifier_takeover (w : World) (es : list event) :
  USERS_KEY (storage w) = Some Garbled ->
  userVal (app w) = "admin" ->
  let w' := run es (handleRegister w) in
  (exists u, u ∈ directory w' /\ UserAccount.username u = "admin" /\
             UserAccount.role u = user) /\
  (forall u, u ∈ directory w' -> UserAccount.role u = user) /\
  (loginRole (app w') = admin -> exists msg, handleLogin w' = alert msg w').
Proof.
  intros Hg Hu w'.
  assert (Hout : userVal (app w) ∉ usernames (directory w)).
  { unfold directory. rewrite getUsersFromStorage_garbled by done. by intros H%elem_of_nil. }
  destruct (citizens_only_run es (handleRegister w)
              [UserAccount.mk (userVal (app w)) (passVal (app w))
                 (JS.or_else (nameVal (app w)) (userVal (app w))) user])
    as (us' & Hk & Ha & Hr).
  { rewrite (handleRegister_fresh w Hout). cbv zeta. simpl.
    unfold directory. by rewrite getUsersFromStorage_garbled. }
  { simpl. rewrite Hu. apply elem_of_cons. by left. }
  { by intros u ->%list_elem_of_singleton. }
  assert (Hd : directory w' = us').
  { destruct (getUsersFromStorage_stored _ _ Hk) as [[_ E] | [H _]]; [exact E | contradiction]. }
  rewrite Hd. split; [|split].
  - apply list_elem_of_In, in_map_iff in Ha as (u & E & Hin%list_elem_of_In).
    exists u. repeat split; [done.. | by apply Hr].
  - exact Hr.
  - intros Hl. destruct (handleLogin_cases w') as [H | (u & Hin & _ & Hrole & _)]; [exact H|].
    rewrite Hd in Hin. apply Hr in Hin. congruence.
Qed.

Lemma admin_identifier_takeover_witness :
  let w := mkWorld (app sampleWorld) (mkStorage None (Some Garbled)) []
             |> setUserVal "admin" in
  exists u,
    u ∈ directory (run [ChangeUserVal "asha"; SubmitRegister; Reload] (handleRegister w)) /\
    UserAccount.username u = "admin" /\ UserAccount.role u = user.
Proof.
  exact (proj1 (admin_identifier_takeover
    (mkWorld (app sampleWorld) (mkStorage None (Some Garbled)) [] |> setUserVal "admin")
    [ChangeUserVal "asha"; SubmitRegister; Reload] eq_refl eq_refl)).
Defined.

(** X11.  Registration followed by login: after a registration with a fresh
    identifier, typing the same password again and logging in as a citizen
    opens the session of the new account, whose display name is the name
    typed, or the identifier when no name was typed.  The registration
    clears the password field, so a login without typing the password again
    is answered with invalid credentials unless the password is empty. *)
Theorem register_then_login (w : World) :
  userVal (app w) ∉ usernames (directory w) ->
  let a := app w in
  let w1 := handleRegister w in
  (handleLogin (w1 |> setPassVal (passVal a) |> setLoginRole user) =
   (w1 |> setPassVal (passVal a) |> setLoginRole user
       |> setCurrentUser (Some (UserSession.mk (userVal a) user
                                  (JS.or_else (nameVal a) (userVal a))))
       |> setView dashboard)) /\
  (passVal a <> "" ->
   handleLogin (w1 |> setLoginRole user)
   = alert "Invalid credentials!" (w1 |> setLoginRole user)).
Proof.
  intros Hout a w1. subst a.
  set (newUser := UserAccount.mk (userVal (app w)) (passVal (app w))
                    (JS.or_else (nameVal (app w)) (userVal (app w))) user).
  assert (Hw1 : w1 = (w |> writing (saveUsersToStorage (directory w ++ [newUser]))
                        |> alert "Registration successful! Please login."
                        |> setAuthMode login |> setPassVal ""))
    by apply (handleRegister_fresh w Hout).
  assert (Hd : forall v, v ∈ directory w1 ->
                 v ∈ directory w \/ v = newUser \/
                 (v = defaultAdmin /\ userVal (app w) <> "admin")).
  { rewrite Hw1. unfold directory at 1. simpl.
    destruct (getUsersFromStorage_stored
                (saveUsersToStorage (directory w ++ [newUser]) (storage w))
                (directory w ++ [newUser]) eq_refl) as [[_ ->] | [Hn ->]].
    - intros v [Hv | ->%list_elem_of_singleton]%elem_of_app; auto.
    - intros v [[Hv | ->%list_elem_of_singleton]%elem_of_app
               | ->%list_elem_of_singleton]%elem_of_app; auto.
      right. right. split; [done|]. intros E. apply Hn.
      rewrite usernames_app. apply elem_of_app. right. simpl. rewrite E.
      apply elem_of_cons. by left. }
  assert (Hnew : newUser ∈ directory w1).
  { rewrite Hw1. unfold directory at 1. simpl.
    destruct (getUsersFromStorage_stored
                (saveUsersToStorage (directory w ++ [newUser]) (storage w))
                (directory w ++ [newUser]) eq_refl) as [[_ ->] | [_ ->]].
    - apply elem_of_app. right. apply elem_of_cons. by left.
    - apply elem_of_app. left. apply elem_of_app. right. apply elem_of_cons. by left. }
  assert (Huser : userVal (app w1) = userVal (app w)) by (by rewrite Hw1).
  assert (Hold : forall v, v ∈ directory w -> UserAccount.username v <> userVal (app w)).
  { intros v Hv E. apply Hout. rewrite <- E. apply list_elem_of_In, in_map.
    by apply list_elem_of_In. }
  split.
  - apply (handleLogin_found _ newUser).
    + exact Hnew.
    + split; simpl; [by rewrite Huser | reflexivity].
    + intros v Hv [Hv1 _]. simpl in Hv1. rewrite Huser in Hv1.
      destruct (Hd v Hv) as [H | [H | [-> H]]]; [by apply Hold in H | done | done].
    + reflexivity.
  - intros Hp. apply handleLogin_none. intros v Hv [Hv1 Hv2]. simpl in Hv1, Hv2.
    rewrite Huser in Hv1. rewrite Hw1 in Hv2. simpl in Hv2.
    destruct (Hd v Hv) as [H | [-> | [-> H]]]; [by apply Hold in H | done | done].
Qed.

Lemma register_then_login_witness :
  let w := sampleWorld |> setUserVal "asha" |> setPassVal "pw" in
  currentUser (app (handleLogin (handleRegister w |> setPassVal "pw" |> setLoginRole user)))
  = Some (UserSession.mk "asha" user "asha").
Proof.
  assert (Hout : "asha" ∉ usernames (directory (sampleWorld |> setUserVal "asha"
                                                  |> setPassVal "pw"))).
  { intros [H|[H|H%elem_of_nil]%elem_of_cons]%elem_of_cons;
      [discriminate | discriminate | exact H]. }
  exact (f_equal (fun w => currentUser (app w))
           (proj1 (register_then_login
                     (sampleWorld |> setUserVal "asha" |> setPassVal "pw") Hout))).
Defined.

(** ** The admin dashboard *)

Section Dashboard.

Lemma filter_length_ext {A : Type} (f g : A -> bool) l :
  (forall x, f x = g x) -> length (List.filter f l) = length (List.filter g l).
Proof. intros H. by rewrite (filter_ext f g H). Qed.

Lemma matchesFilters_status_only w s c :
  matchesFilters
    (app (w |> setSearchQuery "" |> setStatusFilter (Only s) |> setUrgencyFilter All
            |> setCategoryFilter "All")) c
  = bool_decide (Complaint.status c = s).
Proof.
  unfold matchesFilters. simpl. rewrite !includes_empty. simpl.
  by rewrite !andb_true_r.
Qed.

End Dashboard.

(** X12.  The counters New, Active and Done of the admin dashboard add up
    to the size of the ledger, and the counter High is at most New plus
    Active.  Each of the three is the length of the list shown when the
    search text is empty and only the status filter is set, to [Pending],
    [InProgress] and [Resolved] respectively. *)
Theorem dashboard_counters (w : World) :
  let a := app w in
  countNew a + countActive a + countDone a = length (complaints a) /\
  countHigh a <= countNew a + countActive a /\
  (forall s,
     length (filteredComplaints
               (app (w |> setSearchQuery "" |> setStatusFilter (Only s)
                       |> setUrgencyFilter All |> setCategoryFilter "All")))
     = match s with
       | Pending => countNew a
       | InProgress => countActive a
       | Resolved => countDone a
       end).
Proof.
  intros a. subst a. unfold countNew, countActive, countDone, countHigh. split; [|split].
  - induction (complaints (app w)) as [|c l IH]; simpl; [reflexivity|].
    destruct (Complaint.status c); simpl; lia.
  - induction (complaints (app w)) as [|c l IH]; simpl; [lia|].
    destruct (Complaint.status c), (Complaint.urgency c); simpl; lia.
  - intros s. unfold filteredComplaints.
    rewrite (filter_length_ext _ _ _ (matchesFilters_status_only w s)). simpl.
    by destruct s.
Qed.

(** X13.  The page has controls for the search text and the status filter
    only: in every reachable world the urgency filter and the category filter
    are at [All].  So, for ASCII search text, identifiers and English texts,
    the list of the admin dashboard holds exactly the complaints in whose
    identifier or English text the search text occurs, up to the case of the
    ASCII letters, and whose status is the one of the status filter when that
    filter is set. *)
Theorem reachable_listing (w : World) :
  reachable w ->
  urgencyFilter (app w) = All /\
  categoryFilter (app w) = "All" /\
  (asciiSearch (app w) ->
   forall c,
     c ∈ filteredComplaints (app w) <->
     c ∈ complaints (app w) /\
     (ContainsIgnoringCase (Complaint.id c) (searchQuery (app w)) \/
      ContainsIgnoringCase (Complaint.englishText c) (searchQuery (app w))) /\
     (forall s, statusFilter (app w) = Only s -> Complaint.status c = s)).
Proof.
  intros H. destruct (reachable_filters w H) as [Hu Hc]. split; [exact Hu|].
  split; [exact Hc|]. intros _ c. unfold filteredComplaints.
  rewrite list_elem_of_In, filter_In, <- list_elem_of_In, matchesFilters_spec.
  unfold SatisfiesQuery. rewrite Hu, Hc. intuition congruence.
Qed.

Lemma reachable_listing_witness :
  urgencyFilter (app officeWorld) = All /\
  roadComplaint ∈ filteredComplaints (app officeWorld) /\
  ~ waterComplaint ∈ filteredComplaints (app officeWorld).
Proof.
  destruct (reachable_listing officeWorld officeWorld_reachable) as (Hu & _ & Hl).
  specialize (Hl officeWorld_ascii).
  destruct officeWorld_filters as [Hq Hs].
  split; [exact Hu|]. split.
  - apply Hl. rewrite officeWorld_ledger, Hq, Hs. split.
    + apply elem_of_cons. right. apply elem_of_cons. by left.
    + split; [|by intros s [= <-]].
      right. exists "", "Road", " is broken near the market". split; [reflexivity|].
      same_letters.
  - intros H. apply Hl in H. destruct H as (_ & _ & Hst).
    specialize (Hst Pending Hs). discriminate.
Defined.

(** ** What the lists show *)

Section Lists.

Lemma filter_map_invariant {A : Type} (p : A -> bool) (f : A -> A) l :
  (forall x, p (f x) = p x) -> List.filter p (map f l) = map f (List.filter p l).
Proof.
  intros H. induction l as [|x l IH]; simpl; [reflexivity|].
  rewrite H. destruct (p x); simpl; by rewrite IH.
Qed.

Lemma map_map_invariant {A B : Type} (g : A -> B) (f : A -> A) l :
  (forall x, g (f x) = g x) -> map g (map f l) = map g l.
Proof. intros H. rewrite map_map. by apply map_ext. Qed.

Lemma filter_sublist_impl {A : Type} (p q : A -> bool) l :
  (forall x, p x = true -> q x = true) -> sublist (List.filter p l) (List.filter q l).
Proof.
  intros H. induction l as [|x l IH]; simpl; [constructor|].
  destruct (p x) eqn:Ep.
  - rewrite (H x Ep). by constructor.
  - destruct (q x); [by constructor | exact IH].
Qed.

Lemma string_app_assoc (s t u : string) : (s +:+ t) +:+ u = s +:+ (t +:+ u).
Proof.
  induction s as [|c s IH]; [reflexivity|].
  change (String c ((s +:+ t) +:+ u) = String c (s +:+ (t +:+ u))). by rewrite IH.
Qed.

Lemma ContainsIgnoringCase_trans s q' q :
  ContainsIgnoringCase s q' -> ContainsIgnoringCase q' q -> ContainsIgnoringCase s q.
Proof.
  intros (pre & m & post & -> & Hm%EqualIgnoringCase_lower)
         (pre' & m' & post' & -> & Hm'%EqualIgnoringCase_lower).
  rewrite !toLowerCase_app in Hm.
  destruct (toLowerCase_split _ _ _ Hm) as (m1 & m23 & -> & H1 & H23).
  destruct (toLowerCase_split _ _ _ H23) as (m2 & m3 & -> & H2 & H3).
  exists (pre +:+ m1), m2, (m3 +:+ post).
  split; [|apply EqualIgnoringCase_lower; congruence].
  by rewrite !string_app_assoc.
Qed.

End Lists.

(** X15.  A remark never changes which complaints the admin list shows,
    nor their order, nor their status.  With the status filter at [All] a
    status update does not change which complaints are shown either; with the
    status filter set to a status, an update to another status takes every
    complaint with the updated id off the list. *)
Theorem listing_under_updates (id : string) (s : Status) (comment : string) (now : Z)
    (w : World) :
  (map createdAs (filteredComplaints (app (addComment id comment now w)))
     = map createdAs (filteredComplaints (app w)) /\
   map Complaint.status (filteredComplaints (app (addComment id comment now w)))
     = map Complaint.status (filteredComplaints (app w))) /\
  (statusFilter (app w) = All ->
   map createdAs (filteredComplaints (app (updateStatus id s w)))
     = map createdAs (filteredComplaints (app w))) /\
  (forall s0, statusFilter (app w) = Only s0 -> s <> s0 ->
   forall c, c ∈ filteredComplaints (app (updateStatus id s w)) -> Complaint.id c <> id).
Proof.
  split; [|split].
  - destruct (decide (JS.trim comment = "")) as [Hb|Hb].
    + by rewrite addComment_blank.
    + rewrite (addComment_written _ _ _ _ Hb). cbv zeta.
      unfold filteredComplaints. simpl.
      rewrite filter_map_invariant.
      * split; apply map_map_invariant; intros c; by destruct (Complaint.id c =? id).
      * intros c. by destruct (Complaint.id c =? id).
  - intros Hf. unfold filteredComplaints, updateStatus. simpl.
    rewrite filter_map_invariant.
    + apply map_map_invariant. intros c. by destruct (Complaint.id c =? id).
    + intros c. unfold matchesFilters. simpl. rewrite Hf.
      by destruct (Complaint.id c =? id).
  - intros s0 Hf Hne c. unfold filteredComplaints, updateStatus. simpl.
    rewrite list_elem_of_In, filter_In, in_map_iff.
    intros [(c0 & E & _) Hm] Hid.
    unfold matchesFilters in Hm. simpl in Hm. rewrite Hf in Hm.
    apply andb_true_iff in Hm as [Hm _]. apply andb_true_iff in Hm as [Hm _].
    apply andb_true_iff in Hm as [_ Hst]. apply bool_decide_eq_true in Hst.
    destruct (String.eqb_spec (Complaint.id c0) id) as [E0|E0]; subst c.
    + simpl in Hst. congruence.
    + contradiction.
Qed.

Lemma listing_under_updates_witness :
  map createdAs (filteredComplaints (app (updateStatus "CIT-0042" Resolved sampleWorld)))
    = map createdAs (filteredComplaints (app sampleWorld)) /\
  forall c,
    c ∈ filteredComplaints
          (app (updateStatus "CIT-0042" Resolved (setStatusFilter (Only Pending) sampleWorld))) ->
    Complaint.id c <> "CIT-0042".
Proof.
  split.
  - exact (proj1 (proj2 (listing_under_updates "CIT-0042" Resolved "" 0 sampleWorld)) eq_refl).
  - refine (proj2 (proj2 (listing_under_updates "CIT-0042" Resolved "" 0
              (setStatusFilter (Only Pending) sampleWorld))) Pending eq_refl _).
    discriminate.
Defined.

(** X16.  After a submission that goes through, the new complaint is the
    first entry of the submitter's own list, in front of what the list had,
    and the list of any user with another identifier is as before. *)
Theorem mySubmissions_after_submit rnd now reply w cu translated urgency :
  submittable w cu ->
  classification reply = Some (translated, urgency) ->
  let w' := submitComplaint rnd now reply w in
  (exists c,
     mySubmissions cu (app w') = c :: mySubmissions cu (app w) /\
     Complaint.id c = complaintId rnd /\
     Complaint.originalText c = text (app w) /\
     Complaint.status c = Pending) /\
  (forall other, UserSession.id other <> UserSession.id cu ->
     mySubmissions other (app w') = mySubmissions other (app w)).
Proof.
  intros Hs Hc w'. subst w'.
  rewrite (submitComplaint_returned _ _ _ _ _ _ _ Hs Hc). cbv zeta.
  unfold mySubmissions. simpl. split.
  - rewrite String.eqb_refl. eexists. split; [reflexivity|]. by repeat split.
  - intros other Hne. apply not_eq_sym, String.eqb_neq in Hne. by rewrite Hne.
Qed.

Lemma mySubmissions_after_submit_witness :
  exists c,
    mySubmissions (UserSession.mk "ravi" user "Ravi Kumar")
      (app (submitComplaint 42 1700000500000 (Fulfilled None) sampleWorld))
    = c :: [streetlight; pothole] /\
    Complaint.id c = "CIT-0042".
Proof.
  assert (Hs : submittable sampleWorld (UserSession.mk "ravi" user "Ravi Kumar")).
  { split; [reflexivity | vm_compute; discriminate]. }
  destruct (proj1 (mySubmissions_after_submit 42 1700000500000 (Fulfilled None) sampleWorld
                     _ None None Hs eq_refl)) as (c & H1 & H2 & _).
  exists c. split; [exact H1 | exact H2].
Defined.

(** X17.  Narrowing the search can only shorten the list.  For ASCII
    search texts, identifiers and English texts: when the old search text
    occurs, up to the case of the ASCII letters, in the new one, the list for
    the new search text is a sublist of the list for the old one. *)
Theorem search_narrowing (w : World) (q' : string) :
  asciiSearch (app w) ->
  isASCII q' = true ->
  ContainsIgnoringCase q' (searchQuery (app w)) ->
  sublist (filteredComplaints (app (setSearchQuery q' w))) (filteredComplaints (app w)).
Proof.
  intros _ _ Hq. unfold filteredComplaints. simpl complaints.
  apply filter_sublist_impl. intros c.
  rewrite !matchesFilters_spec. unfold SatisfiesQuery. simpl.
  intros ([H | H] & H2).
  - split; [left; by eapply ContainsIgnoringCase_trans | exact H2].
  - split; [right; by eapply ContainsIgnoringCase_trans | exact H2].
Qed.

Lemma search_narrowing_witness :
  let w := sampleWorld |> setSearchQuery "THE" in
  filteredComplaints (app w) = [streetlight; pothole] /\
  filteredComplaints (app (setSearchQuery "The R" w)) = [pothole] /\
  sublist (filteredComplaints (app (setSearchQuery "The R" w))) (filteredComplaints (app w)).
Proof.
  intros w. split; [vm_compute; reflexivity|]. split; [vm_compute; reflexivity|].
  refine (search_narrowing w "The R" _ eq_refl _).
  - split; [reflexivity|].
    intros c [->|[->|H%elem_of_nil]%elem_of_cons]%elem_of_cons; [by split | by split | done].
  - exists "", "The", " R". split; [reflexivity|]. same_letters.
Defined.

(** ** Complaint identifiers *)

Section Identifiers.

Lemma lengths_ok_spec k n :
  lengths_ok k (Unsigned.to_lu n) = true ->
  forall m, (n <= m < n + k)%nat -> (String.length (JS.toString m) <= 4)%nat.
Proof.
  revert n. induction k as [|k IH]; intros n H m Hm; [lia|].
  simpl in H. apply andb_true_iff in H as [H1 H2].
  destruct (decide (m = n)) as [->|Hne].
  - unfold JS.toString. rewrite Unsigned.to_uint_alt. by apply Nat.leb_le.
  - rewrite <- Unsigned.to_lu_succ in H2. apply (IH (S n) H2). lia.
Qed.

Lemma lengths_ok_all : lengths_ok (100 * 100) (Unsigned.to_lu 0) = true.
Proof. vm_compute. reflexivity. Qed.

Lemma string_of_uint_zeros k u :
  NilEmpty.string_of_uint (Nat.iter k Decimal.D0 u)
  = JS.repeat_char "0" k +:+ NilEmpty.string_of_uint u.
Proof. induction k as [|k IH]; simpl; [reflexivity | by rewrite IH]. Qed.

Lemma of_uint_zeros k u : Nat.of_uint (Nat.iter k Decimal.D0 u) = Nat.of_uint u.
Proof. induction k as [|k IH]; simpl; [reflexivity | exact IH]. Qed.

Lemma idNumber_complaintId rnd : idNumber (complaintId rnd) = Some rnd.
Proof.
  unfold complaintId, JS.padStart, JS.toString.
  change ("CIT-" +:+ ?s) with (String "C" (String "I" (String "T" (String "-" s)))).
  cbn [idNumber]. rewrite <- string_of_uint_zeros, NilEmpty.usu. simpl.
  by rewrite of_uint_zeros, Unsigned.of_to.
Qed.

Lemma length_string_app (s t : string) :
  String.length (s +:+ t) = (String.length s + String.length t)%nat.
Proof.
  induction s as [|c s IH]; [reflexivity|].
  change (S (String.length (s +:+ t)) = S (String.length s + String.length t)).
  by rewrite IH.
Qed.

Lemma length_repeat_char c k : String.length (JS.repeat_char c k) = k.
Proof. induction k as [|k IH]; simpl; [reflexivity | by rewrite IH]. Qed.

End Identifiers.

(** X18.  The number of a complaint id can be read back from the id, so two
    draws give the same id only when they are the same draw; and for every
    draw below 10000 (written [100 * 100]), which covers every value of
    [Math.floor(Math.random() * 9999)], the id has eight characters, the
    prefix and four digits. *)
Theorem complaintId_round_trip :
  (forall rnd, idNumber (complaintId rnd) = Some rnd) /\
  (forall r1 r2, complaintId r1 = complaintId r2 -> r1 = r2) /\
  (forall rnd, (rnd < 100 * 100)%nat -> String.length (complaintId rnd) = 8%nat).
Proof.
  split; [exact idNumber_complaintId|]. split.
  - intros r1 r2 E. apply (f_equal idNumber) in E.
    rewrite !idNumber_complaintId in E. congruence.
  - intros rnd Hr.
    pose proof (lengths_ok_spec (100 * 100) 0 lengths_ok_all rnd ltac:(lia)) as Hl.
    unfold complaintId, JS.padStart.
    rewrite !length_string_app, length_repeat_char. simpl. lia.
Qed.

Lemma complaintId_round_trip_witness :
  String.length (complaintId 431) = 8%nat /\ (complaintId 7 = complaintId 7 -> 7 = 7)%nat.
Proof.
  split.
  - refine (proj2 (proj2 complaintId_round_trip) 431%nat _). lia.
  - exact (proj1 (proj2 complaintId_round_trip) 7%nat 7%nat).
Defined.

(** X19.  A submission does not look at the identifiers already in the
    ledger: two submissions that go through with the same draw leave two
    complaints with the same identifier at the front of the ledger, and a
    status update with that identifier then changes both. *)
Theorem duplicate_identifiers rnd now1 now2 reply1 reply2 r1 r2 text2 s w cu :
  submittable w cu ->
  classification reply1 = Some r1 ->
  classification reply2 = Some r2 ->
  JS.trim text2 <> "" ->
  let w2 := submitComplaint rnd now2 reply2
              (setText text2 (submitComplaint rnd now1 reply1 w)) in
  exists c1 c2,
    complaints (app w2) = c2 :: c1 :: complaints (app w) /\
    Complaint.id c1 = complaintId rnd /\
    Complaint.id c2 = complaintId rnd /\
    exists rest,
      complaints (app (updateStatus (complaintId rnd) s w2))
      = Complaint.with_status s c2 :: Complaint.with_status s c1 :: rest.
Proof.
  intros Hs Hc1 Hc2 Ht w2. subst w2. destruct r1 as [tr1 ur1], r2 as [tr2 ur2].
  rewrite (submitComplaint_returned rnd now1 reply1 w cu tr1 ur1 Hs Hc1). cbv zeta.
  match goal with
  | |- context [submitComplaint rnd now2 reply2 ?w1] =>
      assert (Hs1 : submittable w1 cu) by (destruct Hs as [Hcu _]; by split);
      rewrite (submitComplaint_returned rnd now2 reply2 w1 cu tr2 ur2 Hs1 Hc2)
  end.
  cbv zeta. simpl. eexists _, _. split; [reflexivity|]. split; [reflexivity|].
  split; [reflexivity|]. unfold updateStatus. simpl. rewrite !String.eqb_refl.
  eexists. reflexivity.
Qed.

Lemma duplicate_identifiers_witness :
  exists c1 c2,
    complaints (app (submitComplaint 7 1700000600000 (Fulfilled None)
                       (setText "paani nahi aa raha"
                          (submitComplaint 7 1700000500000 (Fulfilled None) sampleWorld))))
    = c2 :: c1 :: [streetlight; pothole] /\
    Complaint.id c1 = Complaint.id c2.
Proof.
  assert (Hs : submittable sampleWorld (UserSession.mk "ravi" user "Ravi Kumar")).
  { split; [reflexivity | vm_compute; discriminate]. }
  assert (Ht : JS.trim "paani nahi aa raha" <> "") by (vm_compute; discriminate).
  destruct (duplicate_identifiers 7 1700000500000 1700000600000 (Fulfilled None)
              (Fulfilled None) (None, None) (None, None) "paani nahi aa raha" Resolved
              sampleWorld _ Hs eq_refl eq_refl Ht) as (c1 & c2 & H1 & H2 & H3 & _).
  exists c1, c2. split; [exact H1 | congruence].
Defined.

(** ** Owners *)

Section Owners.

Lemma owners_frame (l : list Complaint.t) (d d' : list UserAccount.t) :
  (forall u, u ∈ d -> u ∈ d') ->
  Forall (ownedIn d) l ->
  Forall (ownedIn d') l.
Proof.
  intros Hd HF. eapply Forall_impl; [exact HF|].
  intros c (u & Hu & H). exists u. split; [by apply Hd | exact H].
Qed.

Lemma owners_map (f : Complaint.t -> Complaint.t) (l : list Complaint.t)
    (d : list UserAccount.t) :
  (forall c, Complaint.userId (f c) = Complaint.userId c /\
             Complaint.userName (f c) = Complaint.userName c) ->
  Forall (ownedIn d) l ->
  Forall (ownedIn d) (map f l).
Proof.
  intros Hf. induction 1 as [|c l (u & Hu & H1 & H2) _ IH]; simpl; constructor; [|exact IH].
  exists u. destruct (Hf c) as [-> ->]. by repeat split.
Qed.

Lemma reachable_owners w :
  reachable w ->
  Forall (ownedIn (directory w)) (complaints (app w)).
Proof.
  induction 1 as [|e w Hw IH]; [constructor|].
  pose proof (reachable_not_garbled w Hw) as Hg.
  pose proof (reachable_session_ok w Hw) as Hso.
  pose proof (reachable_in_sync w Hw) as Hsync.
  assert (Hgrow : forall u, u ∈ directory w -> u ∈ directory (handle e w)).
  { intros u Hu. destruct (handle_directory_grows e w Hg) as [-> | (v & _ & ->)]; [done|].
    apply elem_of_app. by left. }
  apply (owners_frame _ _ _ Hgrow) in IH. clear Hgrow.
  destruct e; try exact IH.
  - (* reload *) simpl. rewrite Hsync. exact IH.
  - (* register *)
    simpl in *. destruct (decide (userVal (app w) ∈ usernames (directory w))) as [Hin|Hout].
    + by rewrite handleRegister_taken in *.
    + rewrite (handleRegister_fresh w Hout) in *. exact IH.
  - (* login *)
    simpl in *. destruct (handleLogin_cases w) as [[msg E] | (u & _ & _ & _ & E)];
      rewrite E in *; exact IH.
  - (* submit *)
    simpl in *. destruct (submitComplaint_cases rnd now reply w)
      as [E | [(cu & _ & _ & E) | (cu & tr & ur & [Hcu _] & _ & E)]];
      rewrite E in *; try exact IH.
    cbv zeta in *. simpl. constructor; [|exact IH]. simpl.
    unfold session_ok in Hso. rewrite Hcu in Hso.
    destruct Hso as [_ (u & Hu & H1 & _ & H3)]. exists u. by repeat split.
  - (* status *)
    simpl in *. apply owners_map; [|exact IH]. intros c. by destruct (Complaint.id c =? id).
  - (* remark *)
    simpl in *. unfold addComment in *. destruct (negb _); [exact IH|]. simpl in *.
    apply owners_map; [|exact IH]. intros c. by destruct (Complaint.id c =? id).
Qed.

End Owners.

(** X20.  In every reachable world each complaint of the ledger is owned by
    an account of the directory: its owner identifier is the identifier of an
    account, and its owner name is the display name of that account. *)
Theorem ledger_owners_registered (w : World) :
  reachable w ->
  forall c, c ∈ complaints (app w) ->
    exists u, u ∈ directory w /\
      UserAccount.username u = Complaint.userId c /\
      UserAccount.name u = Complaint.userName c.
Proof.
  intros H c Hc. pose proof (reachable_owners w H) as HF.
  rewrite Forall_forall in HF. by apply HF.
Qed.

Lemma ledger_owners_registered_witness :
  let w := run [ChangeUserVal "asha"; ChangePassVal "pw"; SubmitRegister; ChangePassVal "pw";
                SubmitLogin; ChangeText "road broken near market";
                SubmitComplaint 431 1700000900000 (Fulfilled None)] initialWorld in
  exists u, u ∈ directory w /\ UserAccount.username u = "asha" /\ UserAccount.name u = "asha".
Proof.
  intros w.
  pose (c0 := Complaint.mk "CIT-0431" "asha" "asha" "road broken near market"
               "road broken near market" "General" Medium Pending None [] 1700000900000).
  assert (Hr : reachable w).
  { repeat (first [apply reachable_init | eapply (reachable_step _ _)]). }
  assert (Hc : c0 ∈ complaints (app w)).
  { assert (E : complaints (app w) = [c0]) by (vm_compute; reflexivity).
    rewrite E. apply elem_of_cons. by left. }
  exact (ledger_owners_registered w Hr c0 Hc).
Defined.

(** ** Events during a submission *)

Section TwoSteps.

(** The submission in one step is the call followed at once by the rest. *)
Lemma submitComplaint_split rnd now reply w :
  submitComplaint rnd now reply w =
  match submitComplaint_call w with
  | (w1, Some k) => submitComplaint_resume rnd now reply k w1
  | (w1, None) => w1
  end.
Proof.
  unfold submitComplaint, submitComplaint_call.
  destruct (currentUser (app w)) as [cu|]; [|reflexivity].
  destruct (negb _); reflexivity.
Qed.

Lemma submitComplaint_resume_returned rnd now reply k w translated urgency :
  classification reply = Some (translated, urgency) ->
  submitComplaint_resume rnd now reply k w =
  let newComplaint :=
    Complaint.mk (complaintId rnd) (UserSession.id (closure_currentUser k))
      (UserSession.name (closure_currentUser k)) (closure_text k)
      (match translated with
       | Some t => JS.or_else t (closure_text k)
       | None => closure_text k
       end)
      (closure_selectedCat k) (JS.or_default urgency Medium) Pending (closure_img k) [] now in
  let updated := newComplaint :: closure_complaints k in
  w |> setComplaints updated |> writing (saveComplaintsToStorage updated)
    |> setText "" |> setImg None |> setLoading false.
Proof.
  intros Hc. unfold submitComplaint_resume, classification in *.
  destruct (await reply) as [resp|]; simpl in *; [|discriminate].
  destruct (JSON_parse (text_or_empty_object resp)) as [result|]; simpl in *; [|discriminate].
  destruct (get_translated result) as [tr|]; simpl in *; [|discriminate].
  destruct (get_urgency result) as [ur|]; simpl in *; [|discriminate].
  injection Hc as -> ->. reflexivity.
Qed.






Lemma acts_app xs ys p : acts (xs ++ ys) p = acts ys (acts xs p).
Proof. apply fold_left_app. Qed.

(** Events that overlap a submission leave its closure as it is. *)
Lemma acts_events_awaiting es p :
  forallb overlaps es = true -> awaiting (acts (map Event es) p) = awaiting p.
Proof.
  revert p. induction es as [|e es IH]; intros p H; simpl in *; [reflexivity|].
  apply andb_true_iff in H as [He Hes]. rewrite (IH _ Hes).
  by destruct e.
Qed.

End TwoSteps.



(** X21.  When nothing happens between the click and the reply, the two
    steps of a submission give the world of the submission in one step.
    When events happen in between, the rest of [submitComplaint] writes the
    ledger of the render in which the form was submitted: after the reply,
    memory and storage hold the new complaint followed by the ledger as it
    was at the click, so every status update and every remark made while the
    reply was awaited is gone. *)
Theorem submission_overwrites_updates (w : World) rnd now reply :
  loading (app w) = false ->
  world (acts [SubmitForm; ModelAnswers rnd now reply] (mkPage w None))
    = submitComplaint rnd now reply w /\
  forall cu es translated urgency,
    submittable w cu ->
    classification reply = Some (translated, urgency) ->
    forallb overlaps es = true ->
    let p := acts (SubmitForm :: map Event es ++ [ModelAnswers rnd now reply])
               (mkPage w None) in
    exists c,
      complaints (app (world p)) = c :: complaints (app w) /\
      getComplaintsFromStorage (storage (world p)) = c :: complaints (app w) /\
      Complaint.id c = complaintId rnd /\
      Complaint.userId c = UserSession.id cu /\
      Complaint.originalText c = text (app w) /\
      Complaint.status c = Pending.
Proof.
  intros Hl. split.
  - rewrite submitComplaint_split. simpl. rewrite Hl.
    by destruct (submitComplaint_call w) as [w1 [k|]].
  - intros cu es translated urgency [Hcu Ht] Hc Hes p. subst p.
    apply truthy_spec in Ht.
    change (acts (SubmitForm :: ?l) ?q) with (acts l (act SubmitForm q)).
    assert (E : act SubmitForm (mkPage w None)
                = mkPage (w |> setLoading true)
                    (Some (mkClosure cu (text (app w)) (selectedCat (app w)) (img (app w))
                             (complaints (app w))))).
    { simpl. rewrite Hl. unfold submitComplaint_call. by rewrite Hcu, Ht. }
    rewrite E, acts_app.
    set (p2 := acts (map Event es) _).
    assert (Hk : awaiting p2
                 = Some (mkClosure cu (text (app w)) (selectedCat (app w)) (img (app w))
                           (complaints (app w))))
      by (unfold p2; by rewrite (acts_events_awaiting es _ Hes)).
    change (acts [ModelAnswers rnd now reply] p2) with (act (ModelAnswers rnd now reply) p2).
    cbn [act]. rewrite Hk. cbn [world].
    rewrite (submitComplaint_resume_returned _ _ _ _ _ _ _ Hc). cbv zeta.
    eexists. split; [reflexivity|]. repeat (split; [reflexivity|]). reflexivity.
Qed.

Lemma submission_overwrites_updates_witness :
  let es := [ClickStatus "CIT-0042" Resolved; EnterRemark "CIT-0107" "Fixed" 1700000700000] in
  complaints (app (world (acts (SubmitForm :: map Event es) (mkPage sampleWorld None))))
    = [Complaint.with_adminComments
         [AdminComment.mk "Crew assigned" 1700000360000;
          AdminComment.mk "Fixed" 1700000700000] streetlight;
       Complaint.with_status Resolved pothole] /\
  exists c,
    complaints (app (world (acts (SubmitForm :: map Event es
                                    ++ [ModelAnswers 42 1700000800000 (Fulfilled None)])
                              (mkPage sampleWorld None))))
    = c :: [streetlight; pothole].
Proof.
  intros es. split; [vm_compute; reflexivity|].
  assert (Hs : submittable sampleWorld (UserSession.mk "ravi" user "Ravi Kumar")).
  { split; [reflexivity | vm_compute; discriminate]. }
  destruct (proj2 (submission_overwrites_updates sampleWorld 42 1700000800000 (Fulfilled None)
                     eq_refl) _ es None None Hs eq_refl eq_refl) as (c & H & _).
  exists c. exact H.
Defined.
